(** * Gesture-controlled photo tree: state machine, classifier, layouts, blending

    A shallow embedding of the logic of [src/types.ts], [src/App.tsx], the
    hand tracker and the scene ([src/components/HandTrackerUI.tsx], which
    also holds the [Experience] component) and the photo item
    ([PhotoItem]).

    Conventions of the embedding:
    - a JavaScript [number] is a real number; rounding is not modelled;
    - React state is an explicit store, a [setX] call is a store update, and
      the updates of one event handler are committed together;
    - an effect is a store transformer that runs after a commit;
    - a closure variable that a callback reads is an explicit argument;
    - a thrown [TypeError] (reading a field of [undefined]) is [None]. *)

From Stdlib Require Import Reals Lra List String Bool Arith Lia.
Import ListNotations.
Open Scope R_scope.

(** [a < b] on numbers, as a boolean. *)
Definition Rltb (a b : R) : bool := if Rlt_dec a b then true else false.

(* ------------------------------------------------------------------ *)
(** ** src/types.ts *)

Module Point.
Record t := mk { x : R; y : R }.
End Point.

Module Rotation.
Record t := mk { x : R; y : R; z : R }.
End Rotation.

Inductive AppState := CLOSED | SCATTERED | ZOOMED.

Definition AppState_eqb (a b : AppState) : bool :=
  match a, b with
  | CLOSED, CLOSED | SCATTERED, SCATTERED | ZOOMED, ZOOMED => true
  | _, _ => false
  end.

Record HandGesture := {
  isFist : bool;
  isOpen : bool;
  isGrabbing : bool;
  rotation : Rotation.t;
  position : Point.t;
  rawLandmarks : list Point.t
}.

Record PhotoData := { id : string; url : string }.

(** JavaScript truthiness of a [string | null]: [null] and the empty string
    are falsy. *)
Definition truthy (s : option string) : bool :=
  match s with
  | None => false
  | Some s => negb (String.eqb s EmptyString)
  end.

(* ------------------------------------------------------------------ *)
(** ** THREE.Vector3, as far as the scene uses it *)

Module Vector3.
Record t := mk { x : R; y : R; z : R }.

(** [this.x += (v.x - this.x) * alpha], and the same for [y] and [z]. *)
Definition lerp (this v : t) (alpha : R) : t :=
  mk (x this + (x v - x this) * alpha)
     (y this + (y v - y this) * alpha)
     (z this + (z v - z this) * alpha).
End Vector3.

(* ------------------------------------------------------------------ *)
(** ** HandTrackerUI: the gesture classifier *)

Module HandTrackerUI.

(** [Array.prototype.reduce] with the callback's index argument; the
    callback may throw. *)
Fixpoint reduce_from {A B : Type} (f : B -> A -> nat -> option B)
    (i : nat) (acc : B) (l : list A) : option B :=
  match l with
  | [] => Some acc
  | a :: l' =>
      match f acc a i with
      | Some acc' => reduce_from f (S i) acc' l'
      | None => None
      end
  end.

Definition reduce {A B : Type} (f : B -> A -> nat -> option B)
    (init : B) (l : list A) : option B :=
  reduce_from f 0%nat init l.

Definition dist (p1 p2 : Point.t) : R :=
  sqrt ((Point.x p1 - Point.x p2) ^ 2 + (Point.y p1 - Point.y p2) ^ 2).

(** [dist(lm[a], lm[b])]: either landmark missing is a [TypeError]. *)
Definition dist_at (lm : list Point.t) (a b : nat) : option R :=
  match nth_error lm a, nth_error lm b with
  | Some p1, Some p2 => Some (dist p1 p2)
  | _, _ => None
  end.

Definition tips : list nat := [8; 12; 16; 20]%nat.
Definition bases : list nat := [5; 9; 13; 17]%nat.

(** The [avgDist] local of [analyzeFist] and [analyzeOpenHand]. *)
Definition avgDist (lm : list Point.t) : option R :=
  match
    reduce (fun acc tip i =>
              match nth_error bases i with
              | Some base =>
                  match dist_at lm tip base with
                  | Some d => Some (acc + d)
                  | None => None
                  end
              | None => None
              end) 0 tips
  with
  | Some total => Some (total / 4)
  | None => None
  end.

Definition analyzeFist (lm : list Point.t) : option bool :=
  match avgDist lm with
  | Some a => Some (Rltb a 0.12)
  | None => None
  end.

Definition analyzeOpenHand (lm : list Point.t) : option bool :=
  match avgDist lm with
  | Some a => Some (Rltb 0.25 a)
  | None => None
  end.

Definition analyzeGrabbing (lm : list Point.t) : option bool :=
  match dist_at lm 4 8 with
  | Some d => Some (Rltb d 0.05)
  | None => None
  end.

(** The descriptor that [hands.onResults] hands to [onGesture] for the
    first detected hand. *)
Definition describe (landmarks : list Point.t) : option HandGesture :=
  match analyzeFist landmarks with
  | None => None
  | Some isFist =>
  match analyzeOpenHand landmarks with
  | None => None
  | Some isOpen =>
  match analyzeGrabbing landmarks with
  | None => None
  | Some isGrabbing =>
  match nth_error landmarks 0, nth_error landmarks 9 with
  | Some palmBase, Some middleBase =>
      let posX := (Point.x palmBase + Point.x middleBase) / 2 in
      let posY := (Point.y palmBase + Point.y middleBase) / 2 in
      Some {| isFist := isFist;
              isOpen := isOpen;
              isGrabbing := isGrabbing;
              position := Point.mk posX posY;
              rotation := Rotation.mk 0 0 0;
              rawLandmarks := landmarks |}
  | _, _ => None
  end end end end.

(** What the hand tracker reports for one camera frame:
    [multiHandLandmarks] is absent or a list of landmark sets. *)
Record Results := { multiHandLandmarks : option (list (list Point.t)) }.

(** The [hands.onResults] callback, over the state [S] that [onGesture]
    updates. Nothing is called when no hand is reported. *)
Definition onResults {S : Type} (onGesture : HandGesture -> S -> S)
    (results : Results) (st : S) : S :=
  match multiHandLandmarks results with
  | Some (landmarks :: _) =>
      match describe landmarks with
      | Some g => onGesture g st
      | None => st
      end
  | Some [] => st
  | None => st
  end.

End HandTrackerUI.

(* ------------------------------------------------------------------ *)
(** ** App: the store and the gesture handler *)

Module App.

(** The [useState] cells of [App]. *)
Record Store := {
  appState : AppState;
  photos : list PhotoData;
  gesture : option HandGesture;
  selectedPhotoId : option string;
  isCameraActive : bool
}.

Definition initial : Store :=
  {| appState := CLOSED; photos := []; gesture := None;
     selectedPhotoId := None; isCameraActive := false |}.

Definition setAppState (v : AppState) (st : Store) : Store :=
  {| appState := v; photos := photos st; gesture := gesture st;
     selectedPhotoId := selectedPhotoId st;
     isCameraActive := isCameraActive st |}.

Definition setPhotos (v : list PhotoData) (st : Store) : Store :=
  {| appState := appState st; photos := v; gesture := gesture st;
     selectedPhotoId := selectedPhotoId st;
     isCameraActive := isCameraActive st |}.

Definition setGesture (v : option HandGesture) (st : Store) : Store :=
  {| appState := appState st; photos := photos st; gesture := v;
     selectedPhotoId := selectedPhotoId st;
     isCameraActive := isCameraActive st |}.

Definition setSelectedPhotoId (v : option string) (st : Store) : Store :=
  {| appState := appState st; photos := photos st; gesture := gesture st;
     selectedPhotoId := v; isCameraActive := isCameraActive st |}.

(** [handleFileUpload], with the freshly made photo records as input. *)
Definition handleFileUpload (newPhotos : list PhotoData) (st : Store)
    : Store :=
  setPhotos (photos st ++ newPhotos) st.

(** [onGesture]. Its first argument is the [appState] the callback closed
    over ([useCallback (..., [appState])]). *)
Definition onGesture (appState : AppState) (newGesture : HandGesture)
    (st : Store) : Store :=
  let st := setGesture (Some newGesture) st in
  if isFist newGesture && negb (AppState_eqb appState CLOSED) then
    setSelectedPhotoId None (setAppState CLOSED st)
  else if isOpen newGesture && AppState_eqb appState CLOSED then
    setAppState SCATTERED st
  else st.

(** The close button of the photo overlay:
    [onClick={() => setSelectedPhotoId(null)}]. *)
Definition closeModal (st : Store) : Store :=
  setSelectedPhotoId None st.

(** The overlay (and with it the close button) is rendered when
    [selectedPhotoId] is truthy. *)
Definition modalShown (st : Store) : bool := truthy (selectedPhotoId st).

(** [p.id === selectedPhotoId]. *)
Definition hasId (selectedPhotoId : option string) (p : PhotoData) : bool :=
  match selectedPhotoId with
  | Some s => String.eqb (id p) s
  | None => false
  end.

(** The image of the overlay:
    [photos.find(p => p.id === selectedPhotoId)?.url]. *)
Definition modalUrl (st : Store) : option string :=
  match find (hasId (selectedPhotoId st)) (photos st) with
  | Some p => Some (url p)
  | None => None
  end.

(** Where the canvas puts the camera: [camera={{ position: [0, 5, 15] }}]. *)
Definition cameraStart : Vector3.t := Vector3.mk 0 5 15.

End App.

(* ------------------------------------------------------------------ *)
(** ** Math.random and React.useMemo *)

Module Random.
(** The results [Math.random()] will return, and how many were taken. *)
Record t := mk { draws : nat -> R; next : nat }.

Definition random (g : t) : R * t :=
  (draws g (next g), mk (draws g) (S (next g))).

(** [Math.random()] returns a number in [0, 1). *)
Definition in_range (g : t) : Prop := forall n, 0 <= draws g n < 1.
End Random.

Module Memo.
(** One [useMemo] slot of a mounted component: the dependencies and the
    value of the last computation. *)
Record cell (D V : Type) := mk { deps : D; value : V }.
Arguments mk {D V} _ _.
Arguments deps {D V} _.
Arguments value {D V} _.

(** [useMemo(compute, deps)] on a render: computed on mount, and again
    only when a dependency differs from the last render's. *)
Definition useMemo {D V : Type} (same : D -> D -> bool)
    (compute : Random.t -> V * Random.t) (d : D)
    (slot : option (cell D V)) (g : Random.t) : cell D V * Random.t :=
  match slot with
  | Some c =>
      if same (deps c) d then (c, g)
      else let (v, g') := compute g in (mk d v, g')
  | None => let (v, g') := compute g in (mk d v, g')
  end.
End Memo.

(* ------------------------------------------------------------------ *)
(** ** PhotoItem *)

Module PhotoItem.

Record Props := {
  url : string;
  isScattered : bool;
  index : nat;
  total : nat;
  isZoomed : bool
}.

Record Mesh := {
  position : Vector3.t;
  scale : Vector3.t;
  rotation : Rotation.t
}.

(** The locals [h], [r] and [angle] of [treePos]. *)
Definition treePos_h (index total : nat) : R :=
  (INR index / INR total) * 8 - 4.
Definition treePos_r (index total : nat) : R :=
  ((5 - treePos_h index total) / 10) * 4.
Definition treePos_angle (index total : nat) : R :=
  (INR index / INR total) * PI * 4.

Definition treePos (index total : nat) : Vector3.t :=
  let h := treePos_h index total in
  let r := treePos_r index total in
  let angle := treePos_angle index total in
  Vector3.mk (cos angle * r) h (sin angle * r).

(** The body of the [scatterPos] memo: three calls of [Math.random]. *)
Definition scatterPos (g : Random.t) : Vector3.t * Random.t :=
  let (u1, g1) := Random.random g in
  let (u2, g2) := Random.random g1 in
  let (u3, g3) := Random.random g2 in
  (Vector3.mk ((u1 - 0.5) * 20) ((u2 - 0.5) * 20) ((u3 - 0.5) * 20), g3).

(** The hooks of one mounted [PhotoItem]. *)
Record Instance := {
  meshRef : option Mesh;
  treePosMemo : Memo.cell (nat * nat) Vector3.t;
  scatterPosMemo : Memo.cell unit Vector3.t
}.

Definition same_index_total (a b : nat * nat) : bool :=
  Nat.eqb (fst a) (fst b) && Nat.eqb (snd a) (snd b).

Definition newMesh : Mesh :=
  {| position := Vector3.mk 0 0 0;
     scale := Vector3.mk 1 1 1;
     rotation := Rotation.mk 0 0 0 |}.

(** One render of the component function: [None] is the mount. The mesh
    is attached to [meshRef] when the mount commits. *)
Definition render (props : Props) (inst : option Instance) (g : Random.t)
    : Instance * Random.t :=
  let (tp, g1) :=
    Memo.useMemo same_index_total
      (fun g => (treePos (index props) (total props), g))
      (index props, total props)
      (option_map treePosMemo inst) g in
  let (sp, g2) :=
    Memo.useMemo (fun _ _ : unit => true) scatterPos tt
      (option_map scatterPosMemo inst) g1 in
  ({| meshRef := match inst with
                 | Some i => meshRef i
                 | None => Some newMesh
                 end;
      treePosMemo := tp;
      scatterPosMemo := sp |}, g2).

Section Frame.
(** [Object3D.lookAt]: the orientation that turns an object at a
    position towards a point; the renderer's, left abstract. *)
Variable lookAt : Vector3.t -> Vector3.t -> Rotation.t.

(** The [useFrame] callback on the mesh. *)
Definition frameMesh (props : Props) (treePos scatterPos : Vector3.t)
    (camera : Vector3.t) (delta : R) (m : Mesh) : Mesh :=
  if isZoomed props then
    {| position := position m;
       scale := Vector3.lerp (scale m) (Vector3.mk 0 0 0) (delta * 5);
       rotation := rotation m |}
  else
    let target := if isScattered props then scatterPos else treePos in
    let p := Vector3.lerp (position m) target (delta * 3) in
    if isScattered props then
      {| position := p;
         scale := Vector3.lerp (scale m) (Vector3.mk 2.5 2.5 1)
                    (delta * 2);
         rotation := lookAt p camera |}
    else
      {| position := p;
         scale := Vector3.lerp (scale m) (Vector3.mk 1.2 1.2 1)
                    (delta * 2);
         rotation :=
           Rotation.mk (Rotation.x (rotation m))
                       (Rotation.y (rotation m) + delta * 0.5)
                       (Rotation.z (rotation m)) |}.

(** [useFrame] on an instance: nothing happens without a mesh, and the
    memo slots are only read. *)
Definition useFrame (props : Props) (camera : Vector3.t) (delta : R)
    (inst : Instance) : Instance :=
  match meshRef inst with
  | None => inst
  | Some m =>
      {| meshRef :=
           Some (frameMesh props (Memo.value (treePosMemo inst))
                   (Memo.value (scatterPosMemo inst)) camera delta m);
         treePosMemo := treePosMemo inst;
         scatterPosMemo := scatterPosMemo inst |}
  end.

(** What can happen to a mounted item: its parent renders it again
    (mode change, selection, photo added) or a frame is drawn. *)
Inductive Event :=
| Rerender (props : Props)
| Frame (props : Props) (camera : Vector3.t) (delta : R).

Definition handle (e : Event) (s : Instance * Random.t)
    : Instance * Random.t :=
  match e with
  | Rerender props => render props (Some (fst s)) (snd s)
  | Frame props camera delta =>
      (useFrame props camera delta (fst s), snd s)
  end.

Definition run (es : list Event) (s : Instance * Random.t)
    : Instance * Random.t :=
  fold_left (fun s e => handle e s) es s.
End Frame.

End PhotoItem.

(* ------------------------------------------------------------------ *)
(** ** Experience: layouts, particle motion, photo selection *)

Module Experience.

Definition count : nat := 350.
Definition baseRadius : R := 4.
Definition height : R := 10.

(** The vector pushed for index [i] by the loop of [treePositions]. *)
Definition treePosition (i : nat) : Vector3.t :=
  let h := (INR i / INR count) * height in
  let radius := ((height - h) / height) * baseRadius in
  let angle := INR i * 0.4 in
  Vector3.mk (cos angle * radius) (h - height / 2) (sin angle * radius).

Definition treePositions : list Vector3.t :=
  map treePosition (seq 0 count).

(** One element of [scatterPositions]. *)
Definition scatterPosition (g : Random.t) : Vector3.t * Random.t :=
  let (u1, g1) := Random.random g in
  let (u2, g2) := Random.random g1 in
  let (u3, g3) := Random.random g2 in
  (Vector3.mk ((u1 - 0.5) * 30) ((u2 - 0.5) * 30) ((u3 - 0.5) * 30), g3).

Fixpoint scatterPositions_n (n : nat) (g : Random.t)
    : list Vector3.t * Random.t :=
  match n with
  | O => ([], g)
  | S n' =>
      let (v, g1) := scatterPosition g in
      let (vs, g2) := scatterPositions_n n' g1 in
      (v :: vs, g2)
  end.

(** The body of the [scatterPositions] memo. *)
Definition scatterPositions (g : Random.t) : list Vector3.t * Random.t :=
  scatterPositions_n count g.

(** The memo slots of the mounted scene; [count], [height] and
    [baseRadius] are constants, so neither is ever recomputed. *)
Record Instance := {
  treePositionsMemo : Memo.cell unit (list Vector3.t);
  scatterPositionsMemo : Memo.cell unit (list Vector3.t)
}.

Definition render (inst : option Instance) (g : Random.t)
    : Instance * Random.t :=
  let (tp, g1) :=
    Memo.useMemo (fun _ _ : unit => true) (fun g => (treePositions, g)) tt
      (option_map treePositionsMemo inst) g in
  let (sp, g2) :=
    Memo.useMemo (fun _ _ : unit => true) scatterPositions tt
      (option_map scatterPositionsMemo inst) g1 in
  ({| treePositionsMemo := tp; scatterPositionsMemo := sp |}, g2).

Definition currentTargets (appState : AppState) (inst : Instance)
    : list Vector3.t :=
  if AppState_eqb appState CLOSED
  then Memo.value (treePositionsMemo inst)
  else Memo.value (scatterPositionsMemo inst).

(** The position of particle [i] after one pass of the animation loop
    (step 1 of [useFrame]); a missing target is a [TypeError]. *)
Definition frameParticle (appState : AppState) (targets : list Vector3.t)
    (elapsedTime delta : R) (i : nat) (position : Vector3.t)
    : option Vector3.t :=
  match nth_error targets i with
  | None => None
  | Some target =>
      let p := Vector3.lerp position target (delta * 2.5) in
      if AppState_eqb appState SCATTERED then
        Some (Vector3.mk (Vector3.x p)
                (Vector3.y p + sin (elapsedTime + INR i) * 0.005)
                (Vector3.z p))
      else Some p
  end.

(** [gesture?.isGrabbing] as a condition. *)
Definition gestureIsGrabbing (gesture : option HandGesture) : bool :=
  match gesture with
  | Some g => isGrabbing g
  | None => false
  end.

(** The photo-selection effect, on the store whose setters it was given
    ([onPhotoSelect] is [setSelectedPhotoId]). *)
Definition selectionEffect (st : App.Store) : App.Store :=
  if gestureIsGrabbing (App.gesture st)
     && AppState_eqb (App.appState st) SCATTERED
     && negb (truthy (App.selectedPhotoId st))
  then
    if (0 <? List.length (App.photos st))%nat then
      match nth_error (App.photos st) 0 with
      | Some photo =>
          App.setAppState ZOOMED
            (App.setSelectedPhotoId (Some (id photo)) st)
      | None => st
      end
    else st
  else st.

(** [selectedPhotoId === photo.id]. *)
Definition isSelected (selectedPhotoId : option string) (photoId : string)
    : bool :=
  match selectedPhotoId with
  | Some s => String.eqb s photoId
  | None => false
  end.

Fixpoint photoItems_from (st : App.Store) (index : nat)
    (l : list PhotoData) : list PhotoItem.Props :=
  match l with
  | [] => []
  | photo :: l' =>
      {| PhotoItem.url := url photo;
         PhotoItem.isScattered :=
           negb (AppState_eqb (App.appState st) CLOSED);
         PhotoItem.index := index;
         PhotoItem.total := List.length (App.photos st);
         PhotoItem.isZoomed :=
           isSelected (App.selectedPhotoId st) (id photo) |}
      :: photoItems_from st (S index) l'
  end.

(** The props of the photo cloud: [photos.map((photo, index) => ...)]. *)
Definition photoItems (st : App.Store) : list PhotoItem.Props :=
  photoItems_from st 0 (App.photos st).

(** The position of the camera after step 2 of [useFrame] (its
    orientation, set by [camera.lookAt(0, 0, 0)], is not modelled). *)
Definition frameCamera (gesture : option HandGesture)
    (selectedPhotoId : option string) (delta : R) (camera : Vector3.t)
    : Vector3.t :=
  match gesture with
  | Some g =>
      if negb (truthy selectedPhotoId) then
        let targetX := (Point.x (position g) - 0.5) * 15 in
        let targetY := (0.5 - Point.y (position g)) * 15 + 5 in
        Vector3.lerp camera (Vector3.mk targetX targetY 20) (delta * 2)
      else camera
  | None => camera
  end.

(** [groupRef.current.rotation.y] after step 3 of [useFrame]; [None] is
    a group that is not attached. *)
Definition frameGroup (appState : AppState) (delta : R)
    (rotationY : option R) : option R :=
  match rotationY with
  | None => None
  | Some ry =>
      if AppState_eqb appState CLOSED then Some (ry + delta * 0.5)
      else if AppState_eqb appState SCATTERED then Some (ry + delta * 0.1)
      else Some ry
  end.

End Experience.

(* ------------------------------------------------------------------ *)
(** ** The scene as a state machine *)

(** One descriptor handled by an [onGesture] that closed over
    [captured]: the handler's updates commit together, then the selection
    effect runs on the committed store. *)
Definition stepWith (captured : AppState) (newGesture : HandGesture)
    (st : App.Store) : App.Store :=
  Experience.selectionEffect (App.onGesture captured newGesture st).

(** The state machine the program runs. The hand tracker registers
    [onResults] in an effect without dependencies, hence once, with the
    [onGesture] of the first render; that callback closed over the initial
    [appState], and it is the only one ever called. *)
Definition step (newGesture : HandGesture) (st : App.Store) : App.Store :=
  stepWith (App.appState App.initial) newGesture st.

(** The same descriptor fed [n] times to that callback. *)
Fixpoint feed (n : nat) (newGesture : HandGesture) (st : App.Store)
    : App.Store :=
  match n with
  | O => st
  | S n' => feed n' newGesture (step newGesture st)
  end.

(** Closing the viewer, and the effect after that commit. *)
Definition closeViewer (st : App.Store) : App.Store :=
  Experience.selectionEffect (App.closeModal st).

(** A run of camera frames through [onResults]. *)
Definition cameraFrames {S : Type} (onGesture : HandGesture -> S -> S)
    (frames : list HandTrackerUI.Results) (st : S) : S :=
  fold_left (fun st results => HandTrackerUI.onResults onGesture results st)
    frames st.

(** Photos added through the file input, and the effect after that
    commit ([photos] is one of its dependencies). *)
Definition uploadPhotos (newPhotos : list PhotoData) (st : App.Store)
    : App.Store :=
  Experience.selectionEffect (App.handleFileUpload newPhotos st).

(** What the user can do to the store: show a hand, close the viewer (the
    button exists only while the overlay is shown), add photos. *)
Inductive Action :=
| Gesture (newGesture : HandGesture)
| CloseViewer
| Upload (newPhotos : list PhotoData).

(** One action; [sees] tells which [appState] the registered [onGesture]
    closed over, given the current store. *)
Definition act (sees : App.Store -> AppState) (a : Action) (st : App.Store)
    : App.Store :=
  match a with
  | Gesture g => stepWith (sees st) g st
  | CloseViewer => if App.modalShown st then closeViewer st else st
  | Upload newPhotos => uploadPhotos newPhotos st
  end.

Definition runActions (sees : App.Store -> AppState) (l : list Action)
    (st : App.Store) : App.Store :=
  fold_left (fun st a => act sees a st) l st.

(** The callback of the first render sees [CLOSED] for ever. *)
Definition seesFirstRender (_ : App.Store) : AppState :=
  App.appState App.initial.

(** The selection, when there is one, is the id of a photo of the list. *)
Definition selectionListed (st : App.Store) : Prop :=
  forall s, App.selectedPhotoId st = Some s ->
            exists p, In p (App.photos st) /\ id p = s.

(** A frame in which [onResults] finds a hand. *)
Definition hasHand (results : HandTrackerUI.Results) : bool :=
  match HandTrackerUI.multiHandLandmarks results with
  | Some (_ :: _) => true
  | _ => false
  end.

(** A landmark moved by [(dx, dy)]. *)
Definition shift (dx dy : R) (p : Point.t) : Point.t :=
  Point.mk (Point.x p + dx) (Point.y p + dy).

(** A normalized image point. *)
Definition inUnitSquare (p : Point.t) : Prop :=
  0 <= Point.x p <= 1 /\ 0 <= Point.y p <= 1.

(** The box the steered camera moves in. *)
Definition cameraBox (v : Vector3.t) : Prop :=
  - 7.5 <= Vector3.x v <= 7.5
  /\ - 2.5 <= Vector3.y v <= 12.5
  /\ 15 <= Vector3.z v <= 20.

(** One rendered frame as the camera sees it: the latched descriptor, the
    selection and the elapsed time. *)
Record CameraFrame := {
  frameGesture : option HandGesture;
  frameSelected : option string;
  frameDelta : R
}.

Definition steerCamera (frames : list CameraFrame) (camera : Vector3.t)
    : Vector3.t :=
  fold_left
    (fun c f =>
       Experience.frameCamera (frameGesture f) (frameSelected f)
         (frameDelta f) c)
    frames camera.

(** A frame the box invariant covers: the hand inside the image and the
    blend factor at most 1. *)
Definition steadyFrame (f : CameraFrame) : Prop :=
  0 <= frameDelta f * 2 <= 1
  /\ forall g, frameGesture f = Some g -> inUnitSquare (position g).

(** Frames of one photo item under fixed props, one per elapsed time. *)
Definition photoFrames (lookAt : Vector3.t -> Vector3.t -> Rotation.t)
    (props : PhotoItem.Props) (treePos scatterPos camera : Vector3.t)
    (deltas : list R) (m : PhotoItem.Mesh) : PhotoItem.Mesh :=
  fold_left
    (fun m delta =>
       PhotoItem.frameMesh lookAt props treePos scatterPos camera delta m)
    deltas m.

(** Frames of the group under a fixed mode. *)
Definition groupFrames (appState : AppState) (deltas : list R)
    (rotationY : option R) : option R :=
  fold_left (fun ry delta => Experience.frameGroup appState delta ry)
    deltas rotationY.

Definition sumR (l : list R) : R := fold_right Rplus 0 l.

(** What is left of an offset after easing with [rate] over the frames
    [deltas]: the product of the factors [1 - delta * rate]. *)
Definition remaining (rate : R) (deltas : list R) : R :=
  fold_right Rmult 1 (map (fun delta => 1 - delta * rate) deltas).

(** [v] is [target] plus [k] times the offset of [from]. *)
Definition offsetScaled (k : R) (target from v : Vector3.t) : Prop :=
  Vector3.x v = Vector3.x target + (Vector3.x from - Vector3.x target) * k
  /\ Vector3.y v
     = Vector3.y target + (Vector3.y from - Vector3.y target) * k
  /\ Vector3.z v
     = Vector3.z target + (Vector3.z from - Vector3.z target) * k.

(** [v] is within [eps] of [target] on every axis. *)
Definition within (eps : R) (target v : Vector3.t) : Prop :=
  Rabs (Vector3.x v - Vector3.x target) < eps
  /\ Rabs (Vector3.y v - Vector3.y target) < eps
  /\ Rabs (Vector3.z v - Vector3.z target) < eps.

(** The cone of the particle tree: at height [y] the distance from the
    axis is [((5 - y) / 10) * 4]. *)
Definition onTreeCone (v : Vector3.t) : Prop :=
  Rsqr (Vector3.x v) + Rsqr (Vector3.z v)
  = Rsqr (((5 - Vector3.y v) / 10) * 4).

(** The props of the last render among the events, [props] if none. *)
Fixpoint lastProps (props : PhotoItem.Props) (es : list PhotoItem.Event)
    : PhotoItem.Props :=
  match es with
  | [] => props
  | PhotoItem.Rerender props' :: es' => lastProps props' es'
  | PhotoItem.Frame _ _ _ :: es' => lastProps props es'
  end.

(** The tree slot of an instance was computed for the props [props]. *)
Definition treeSlotFor (props : PhotoItem.Props) (inst : PhotoItem.Instance)
    : Prop :=
  Memo.deps (PhotoItem.treePosMemo inst)
  = (PhotoItem.index props, PhotoItem.total props)
  /\ Memo.value (PhotoItem.treePosMemo inst)
     = PhotoItem.treePos (PhotoItem.index props) (PhotoItem.total props).

Definition noHand (results : HandTrackerUI.Results) : Prop :=
  HandTrackerUI.multiHandLandmarks results = None
  \/ HandTrackerUI.multiHandLandmarks results = Some [].

(* ------------------------------------------------------------------ *)
(** ** Reference definitions, in the words of the specification *)

Module Spec.

(** Landmark [i] of a landmark set. *)
Definition landmark (lm : list Point.t) (i : nat) : Point.t :=
  nth i lm (Point.mk 0 0).

Definition euclid (p q : Point.t) : R :=
  sqrt (Rsqr (Point.x p - Point.x q) + Rsqr (Point.y p - Point.y q)).

(** Mean distance, over the four non-thumb fingers, between fingertip
    and base knuckle. *)
Definition fingerSpan (lm : list Point.t) : R :=
  (euclid (landmark lm 8) (landmark lm 5)
   + euclid (landmark lm 12) (landmark lm 9)
   + euclid (landmark lm 16) (landmark lm 13)
   + euclid (landmark lm 20) (landmark lm 17)) / 4.

Definition midpoint (p q : Point.t) : Point.t :=
  Point.mk ((Point.x p + Point.x q) / 2) ((Point.y p + Point.y q) / 2).

(** [position += (target - position) * min(1, rate * delta)], on one
    axis. *)
Definition ease (position target rate delta : R) : R :=
  position + (target - position) * Rmin 1 (rate * delta).

(** Every axis of [after] is the eased value of that axis of [before]. *)
Definition eased (rate delta : R) (target before after : Vector3.t)
    : Prop :=
  Vector3.x after
    = ease (Vector3.x before) (Vector3.x target) rate delta
  /\ Vector3.y after
     = ease (Vector3.y before) (Vector3.y target) rate delta
  /\ Vector3.z after
     = ease (Vector3.z before) (Vector3.z target) rate delta.

(** On no axis is [after] farther from [target] than [before] was. *)
Definition no_farther (target before after : Vector3.t) : Prop :=
  Rabs (Vector3.x target - Vector3.x after)
    <= Rabs (Vector3.x target - Vector3.x before)
  /\ Rabs (Vector3.y target - Vector3.y after)
     <= Rabs (Vector3.y target - Vector3.y before)
  /\ Rabs (Vector3.z target - Vector3.z after)
     <= Rabs (Vector3.z target - Vector3.z before).

(** The conical spiral with tree height [H], base radius [Rb] and
    angular step [k], for item [i] of [N]. *)
Definition spiral (H Rb k : R) (i N : nat) : Vector3.t :=
  let h := (INR i / INR N) * H - H / 2 in
  let r := ((H / 2 - h) / H) * Rb in
  let angle := INR i * k in
  Vector3.mk (cos angle * r) h (sin angle * r).

(** A point of the cube of half-width [w] around the origin. *)
Definition in_cube (w : R) (v : Vector3.t) : Prop :=
  (- w <= Vector3.x v < w)
  /\ (- w <= Vector3.y v < w)
  /\ (- w <= Vector3.z v < w).

End Spec.

(* ------------------------------------------------------------------ *)
(** ** Fixtures for the concrete runs *)

(** A descriptor with the given flags, the hand in the middle of the
    camera image. *)
Definition descriptor (fist open grabbing : bool) : HandGesture :=
  {| isFist := fist; isOpen := open; isGrabbing := grabbing;
     rotation := Rotation.mk 0 0 0;
     position := Point.mk 0.5 0.5;
     rawLandmarks := [] |}.

Definition photo1 : PhotoData := {| id := "k3j9x0a1b"; url := "blob:1" |}.
Definition photo2 : PhotoData := {| id := "z8q2m4n6p"; url := "blob:2" |}.

(** The initial store after one photo was added. *)
Definition onePhoto : App.Store := App.handleFileUpload [photo1] App.initial.

(** Scattered by an open palm, without photos and with one. *)
Definition scatteredEmpty : App.Store :=
  step (descriptor false true false) App.initial.
Definition scatteredOne : App.Store :=
  step (descriptor false true false) onePhoto.

(** [photo1] picked by a pinch. *)
Definition zoomedOne : App.Store :=
  step (descriptor false false true) scatteredOne.

Definition noResults : HandTrackerUI.Results :=
  {| HandTrackerUI.multiHandLandmarks := Some [] |}.

(** A hand of 21 landmarks, all at one point of the image. *)
Definition pointHand : list Point.t := repeat (Point.mk 0.5 0.5) 21.

(** A hand with the four fingers stretched (each tip 0.3 from its base
    knuckle) and the thumb tip on the index tip. *)
Definition openPinchHand : list Point.t :=
  [ Point.mk 0.5 0.9; Point.mk 0.5 0.5; Point.mk 0.5 0.5; Point.mk 0.5 0.5;
    Point.mk 0.6 0.2;
    Point.mk 0.3 0.2; Point.mk 0.5 0.5; Point.mk 0.5 0.5; Point.mk 0.6 0.2;
    Point.mk 0.3 0.4; Point.mk 0.5 0.5; Point.mk 0.5 0.5; Point.mk 0.6 0.4;
    Point.mk 0.3 0.6; Point.mk 0.5 0.5; Point.mk 0.5 0.5; Point.mk 0.6 0.6;
    Point.mk 0.3 0.8; Point.mk 0.5 0.5; Point.mk 0.5 0.5; Point.mk 0.6 0.8 ].

(** A camera frame in which the tracker found one hand. *)
Definition handFrame (landmarks : list Point.t) : HandTrackerUI.Results :=
  {| HandTrackerUI.multiHandLandmarks := Some [landmarks] |}.

(** A renderer stub for [lookAt], and a scattered photo item. *)
Definition lookAtStub (_ _ : Vector3.t) : Rotation.t := Rotation.mk 0 0 0.

Definition scatteredProps : PhotoItem.Props :=
  {| PhotoItem.url := "blob:1"; PhotoItem.isScattered := true;
     PhotoItem.index := 0; PhotoItem.total := 1;
     PhotoItem.isZoomed := false |}.

(** [Math.random] stuck at one value. *)
Definition constantRandom : Random.t := Random.mk (fun _ => 0.25) 0.

(* ================================================================== *)
(** * Properties *)

(** ** The store after [onGesture] and after the selection effect *)

Lemma AppState_eqb_eq a b : AppState_eqb a b = true <-> a = b.
Proof. destruct a, b; simpl; split; congruence. Qed.

Ltac case_store st :=
  destruct st as [mode ps gest sel cam];
  destruct mode;
  try (destruct sel as [[|c0 s0]|]);
  try (destruct ps as [|ph0 ps0]).

Ltac run_machine :=
  unfold step, stepWith, closeViewer, App.onGesture,
    App.closeModal, Experience.selectionEffect, Experience.gestureIsGrabbing,
    App.setGesture, App.setAppState, App.setSelectedPhotoId, truthy;
  simpl.

(** The selection effect never fires twice in a row: after it ran, running
    it again changes nothing, so one run settles the commit. *)
Lemma selectionEffect_settles st :
  Experience.selectionEffect (Experience.selectionEffect st)
  = Experience.selectionEffect st.
Proof.
  destruct st as [mode ps [g|] sel cam]; [destruct g as [f o [|] r p l]|];
    destruct mode; destruct sel as [[|c0 s0]|]; destruct ps as [|ph0 ps0];
    reflexivity.
Qed.

Lemma selectionEffect_no_photos st :
  App.photos st = [] -> Experience.selectionEffect st = st.
Proof.
  intros H. unfold Experience.selectionEffect. rewrite H. simpl.
  destruct (_ && _ && _); reflexivity.
Qed.

(** The effect reads nothing but its dependency list: on two stores that
    agree on [gesture?.isGrabbing], [photos], [appState] and
    [selectedPhotoId], it is idle on one when it is idle on the other. So
    running it after every commit equals running it when a dependency
    changed. *)
Lemma selectionEffect_dependencies st st' :
  Experience.gestureIsGrabbing (App.gesture st')
    = Experience.gestureIsGrabbing (App.gesture st) ->
  App.photos st' = App.photos st ->
  App.appState st' = App.appState st ->
  App.selectedPhotoId st' = App.selectedPhotoId st ->
  Experience.selectionEffect st = st ->
  Experience.selectionEffect st' = st'.
Proof.
  destruct st as [mode ps g sel cam], st' as [mode' ps' g' sel' cam'].
  simpl. intros Hg -> -> -> H.
  unfold Experience.selectionEffect in *. simpl in *. rewrite Hg.
  destruct (Experience.gestureIsGrabbing g); [|reflexivity].
  destruct mode; try reflexivity.
  destruct sel as [[|c0 s0]|]; try reflexivity;
    destruct ps as [|ph0 ps0]; try reflexivity;
    simpl in H; discriminate H.
Qed.

(** With its [appState] at [CLOSED], as in the callback of the first
    render, [onGesture] never takes the fist branch. *)
Lemma first_render_callback_ignores_fist g st :
  isOpen g = false ->
  App.onGesture (App.appState App.initial) g st = App.setGesture (Some g) st.
Proof.
  intros Ho. unfold App.onGesture. simpl. rewrite Ho.
  rewrite andb_false_r. reflexivity.
Qed.

(* ------------------------------------------------------------------ *)
(** ** C4 and C10: the pinch *)

(** The store after a pinch in [SCATTERED] with nothing selected and a
    photo to pick, whatever the other flags of the descriptor are. *)
Lemma pinch_store g st photo rest :
  isGrabbing g = true ->
  App.appState st = SCATTERED -> App.selectedPhotoId st = None ->
  App.photos st = photo :: rest ->
  step g st =
  App.setAppState ZOOMED
    (App.setSelectedPhotoId (Some (id photo)) (App.setGesture (Some g) st)).
Proof.
  destruct g as [f o gr r p l], st as [mode ps gest sel cam]. simpl.
  intros -> -> -> ->.
  destruct f, o; reflexivity.
Qed.

(** Without photos a pinch in [SCATTERED] leaves mode and selection
    alone, whatever the other flags of the descriptor are. *)
Lemma pinch_without_photos g st :
  App.photos st = [] ->
  App.appState st = SCATTERED -> App.selectedPhotoId st = None ->
  step g st = App.setGesture (Some g) st.
Proof.
  destruct g as [f o gr r p l], st as [mode ps gest sel cam]. simpl.
  intros -> -> ->.
  destruct f, o, gr; reflexivity.
Qed.

(** The step enters [ZOOMED] only through the selection effect, which
    asks for a photo. *)
Lemma zoomed_needs_photo captured g st :
  App.appState (stepWith captured g st) = ZOOMED ->
  App.appState st = ZOOMED \/ App.photos st <> [].
Proof.
  destruct (App.photos st) as [|ph0 ps0] eqn:Hp; [|right; discriminate].
  unfold stepWith. rewrite selectionEffect_no_photos.
  - destruct g as [[|] [|] gr r p l], captured,
      st as [[| |] ps gest sel cam]; simpl; intros H;
      try discriminate H; left; reflexivity.
  - destruct g as [[|] [|] gr r p l], captured; exact Hp.
Qed.

Lemma photoItems_from_nth st k l j :
  nth_error (Experience.photoItems_from st k l) j =
  option_map
    (fun photo =>
       {| PhotoItem.url := url photo;
          PhotoItem.isScattered :=
            negb (AppState_eqb (App.appState st) CLOSED);
          PhotoItem.index := (k + j)%nat;
          PhotoItem.total := List.length (App.photos st);
          PhotoItem.isZoomed :=
            Experience.isSelected (App.selectedPhotoId st) (id photo) |})
    (nth_error l j).
Proof.
  revert k j. induction l as [|photo l IH]; intros k [|j]; simpl;
    try reflexivity.
  - rewrite Nat.add_0_r. reflexivity.
  - rewrite IH. rewrite Nat.add_succ_r. reflexivity.
Qed.

(** C4, as stated, fails: with no photo to pick, the pinch changes neither
    the mode nor the selection. *)
Lemma pinch_without_photos_selects_nothing :
  isGrabbing (descriptor false false true) = true
  /\ App.appState scatteredEmpty = SCATTERED
  /\ App.selectedPhotoId scatteredEmpty = None
  /\ App.appState (step (descriptor false false true) scatteredEmpty)
     = SCATTERED
  /\ App.selectedPhotoId (step (descriptor false false true) scatteredEmpty)
     = None.
Proof. repeat split. Qed.

(** C4, amended: a pinch received in [SCATTERED] with nothing selected
    and at least one photo sets the mode to [ZOOMED] and selects the first
    photo, whatever the other flags of the descriptor are. From then on
    the frame of every item with the selected id eases its scale towards
    (0, 0, 0) and leaves position and rotation alone, and every other item
    has the props it had before the pinch, those of a scattered item. *)
Theorem pinch_zooms_first_photo g st photo rest :
  isGrabbing g = true ->
  App.appState st = SCATTERED -> App.selectedPhotoId st = None ->
  App.photos st = photo :: rest ->
  App.appState (step g st) = ZOOMED
  /\ App.selectedPhotoId (step g st) = Some (id photo)
  /\ forall j p, nth_error (App.photos st) j = Some p ->
     exists before after,
       nth_error (Experience.photoItems st) j = Some before
       /\ nth_error (Experience.photoItems (step g st)) j = Some after
       /\ if String.eqb (id photo) (id p) then
            forall lookAt treePos scatterPos camera delta m,
              PhotoItem.frameMesh lookAt after treePos scatterPos camera
                delta m
              = {| PhotoItem.position := PhotoItem.position m;
                   PhotoItem.scale :=
                     Vector3.lerp (PhotoItem.scale m) (Vector3.mk 0 0 0)
                       (delta * 5);
                   PhotoItem.rotation := PhotoItem.rotation m |}
          else
            after = before
            /\ PhotoItem.isScattered before = true
            /\ PhotoItem.isZoomed before = false.
Proof.
  intros Hg Hm Hs Hp.
  rewrite (pinch_store g st photo rest Hg Hm Hs Hp).
  split; [reflexivity|]. split; [reflexivity|].
  intros j p Hj.
  unfold Experience.photoItems. rewrite !photoItems_from_nth.
  simpl. rewrite Hj. simpl. rewrite Hm, Hs. simpl.
  eexists. eexists. split; [reflexivity|]. split; [reflexivity|].
  destruct (String.eqb (id photo) (id p)) eqn:E.
  - intros. unfold PhotoItem.frameMesh. simpl. reflexivity.
  - repeat split.
Qed.

Lemma pinch_zooms_first_photo_witness :
  App.appState (step (descriptor true false true) scatteredOne) = ZOOMED
  /\ App.selectedPhotoId (step (descriptor true false true) scatteredOne)
     = Some (id photo1).
Proof.
  destruct (pinch_zooms_first_photo (descriptor true false true)
              scatteredOne photo1 [] eq_refl eq_refl eq_refl eq_refl)
    as [H1 [H2 _]].
  split; [exact H1 | exact H2].
Defined.

(** C10: with an empty photo list, a pinch received in [SCATTERED] with
    nothing selected changes nothing but the latched descriptor, whatever
    its other flags are: the mode stays [SCATTERED] and the selection
    stays empty; and no step enters [ZOOMED] unless there is a photo. *)
Theorem pinch_needs_a_photo g st :
  App.photos st = [] ->
  isGrabbing g = true ->
  App.appState st = SCATTERED -> App.selectedPhotoId st = None ->
  step g st = App.setGesture (Some g) st
  /\ App.appState (step g st) = SCATTERED
  /\ App.selectedPhotoId (step g st) = None
  /\ forall g' st',
       App.appState (step g' st') = ZOOMED ->
       App.appState st' = ZOOMED \/ App.photos st' <> [].
Proof.
  intros Hp Hg Hm Hs.
  rewrite (pinch_without_photos g st Hp Hm Hs). simpl.
  repeat split; try assumption.
  intros g' st'. apply zoomed_needs_photo.
Qed.

Lemma pinch_needs_a_photo_witness :
  App.appState (step (descriptor true false true) scatteredEmpty) = SCATTERED
  /\ App.selectedPhotoId (step (descriptor true false true) scatteredEmpty)
     = None.
Proof.
  destruct (pinch_needs_a_photo (descriptor true false true) scatteredEmpty
              eq_refl eq_refl eq_refl eq_refl) as [_ [H1 [H2 _]]].
  split; [exact H1 | exact H2].
Defined.

(* ------------------------------------------------------------------ *)
(** ** C7: closing the viewer *)

(** In [ZOOMED] the close button clears the selection and nothing else:
    the effect that runs after the commit asks for [SCATTERED]. *)
Lemma closeViewer_in_zoomed st :
  App.appState st = ZOOMED ->
  closeViewer st = App.setSelectedPhotoId None st.
Proof.
  destruct st as [mode ps gest sel cam]. simpl. intros ->.
  unfold closeViewer, App.closeModal, Experience.selectionEffect. simpl.
  rewrite andb_false_r. reflexivity.
Qed.

(** [ZOOMED] is left by an open palm only. A descriptor that is not an
    open palm (a fist or a pinch included) changes neither the mode nor
    the selection; an open palm while a photo is selected scatters the
    scene and keeps the selection, so the overlay stays up. *)
Theorem zoomed_left_only_by_open_palm g st :
  App.appState st = ZOOMED ->
  (isOpen g = false ->
   App.appState (step g st) = ZOOMED
   /\ App.selectedPhotoId (step g st) = App.selectedPhotoId st)
  /\ (isOpen g = true -> truthy (App.selectedPhotoId st) = true ->
      App.appState (step g st) = SCATTERED
      /\ App.selectedPhotoId (step g st) = App.selectedPhotoId st).
Proof.
  destruct g as [f o gr r p l], st as [mode ps gest sel cam]. simpl.
  intros ->. split.
  - intros ->. run_machine. rewrite !andb_false_r. split; reflexivity.
  - intros -> Hs. destruct sel as [[|c0 s0]|]; try discriminate Hs.
    run_machine. rewrite !andb_false_r. split; reflexivity.
Qed.

(** C7 on the code: the viewer shows [photo1] in [ZOOMED]; closing it
    clears the selection and leaves the mode at [ZOOMED], not
    [SCATTERED]. *)
Lemma closing_viewer_keeps_zoomed :
  App.appState zoomedOne = ZOOMED
  /\ App.selectedPhotoId zoomedOne = Some (id photo1)
  /\ App.modalShown zoomedOne = true
  /\ App.selectedPhotoId (closeViewer zoomedOne) = None
  /\ App.appState (closeViewer zoomedOne) = ZOOMED.
Proof. repeat split. Qed.

(* ------------------------------------------------------------------ *)
(** ** C8: frames without a hand *)

Lemma onResults_noHand {S : Type} (onGesture : HandGesture -> S -> S)
    results (st : S) :
  noHand results -> HandTrackerUI.onResults onGesture results st = st.
Proof.
  unfold HandTrackerUI.onResults. intros [H | H]; rewrite H; reflexivity.
Qed.

(** C8: a frame in which no hand is reported calls [onGesture] not at all,
    whatever handler was registered, so the state the handler would update
    (mode, selection, latched descriptor) is the one before the frame;
    the same holds for any run of such frames. *)
Theorem no_hand_no_update {S : Type} (onGesture : HandGesture -> S -> S)
    frames (st : S) :
  Forall noHand frames ->
  cameraFrames onGesture frames st = st.
Proof.
  intros H. revert st. induction H as [|results frames Hr _ IH]; intros st.
  - reflexivity.
  - unfold cameraFrames in *. simpl.
    rewrite (onResults_noHand onGesture results st Hr). apply IH.
Qed.

Lemma noHand_noResults : noHand noResults.
Proof. right. reflexivity. Qed.

Lemma no_hand_no_update_witness :
  cameraFrames step (repeat noResults 10) App.initial = App.initial
  /\ App.appState (cameraFrames step (repeat noResults 10) App.initial)
     = CLOSED.
Proof.
  assert (H : cameraFrames step (repeat noResults 10) App.initial
              = App.initial).
  { apply (no_hand_no_update step (repeat noResults 10) App.initial).
    simpl. repeat constructor; apply noHand_noResults. }
  split; [exact H | rewrite H; reflexivity].
Defined.

(* ------------------------------------------------------------------ *)
(** ** C2: the classifier against its reference definition *)

Lemma Rltb_true a b : Rltb a b = true <-> a < b.
Proof.
  unfold Rltb. destruct (Rlt_dec a b); split; intros H;
    try reflexivity; try assumption; try discriminate; contradiction.
Qed.

Lemma dist_euclid p q : HandTrackerUI.dist p q = Spec.euclid p q.
Proof.
  unfold HandTrackerUI.dist, Spec.euclid. rewrite !Rsqr_pow2. reflexivity.
Qed.

(** On 21 landmarks no index the classifier reads is missing, and
    [avgDist] is the finger span. *)
Lemma avgDist_fingerSpan lm :
  List.length lm = 21%nat ->
  HandTrackerUI.avgDist lm = Some (Spec.fingerSpan lm).
Proof.
  intros H.
  do 21 (destruct lm as [|? lm]; [discriminate H|]).
  destruct lm; [|discriminate H].
  unfold HandTrackerUI.avgDist, HandTrackerUI.reduce, Spec.fingerSpan,
    Spec.landmark. simpl.
  unfold HandTrackerUI.dist_at. simpl. rewrite !dist_euclid.
  f_equal. lra.
Qed.

(** C2: on every set of 21 landmarks the classifier returns a descriptor,
    and its fields are those of the reference definition: [isFist] iff the
    finger span is below 0.12, [isOpen] iff it is above 0.25, [isGrabbing]
    iff thumb tip and index tip are closer than 0.05, [position] the
    midpoint of wrist and middle-finger base. *)
Theorem classifier_matches_reference lm :
  List.length lm = 21%nat ->
  exists g,
    HandTrackerUI.describe lm = Some g
    /\ (isFist g = true <-> Spec.fingerSpan lm < 0.12)
    /\ (isOpen g = true <-> Spec.fingerSpan lm > 0.25)
    /\ (isGrabbing g = true <->
        Spec.euclid (Spec.landmark lm 4) (Spec.landmark lm 8) < 0.05)
    /\ position g = Spec.midpoint (Spec.landmark lm 0) (Spec.landmark lm 9).
Proof.
  intros H.
  unfold HandTrackerUI.describe, HandTrackerUI.analyzeFist,
    HandTrackerUI.analyzeOpenHand, HandTrackerUI.analyzeGrabbing.
  rewrite (avgDist_fingerSpan lm H).
  generalize (Spec.fingerSpan lm). intros span.
  do 21 (destruct lm as [|? lm]; [discriminate H|]).
  destruct lm; [|discriminate H].
  unfold HandTrackerUI.dist_at, Spec.landmark. simpl.
  eexists. split; [reflexivity|]. simpl.
  rewrite dist_euclid.
  repeat split; try apply Rltb_true; intros H'; apply Rltb_true; exact H'.
Qed.

Lemma classifier_matches_reference_witness :
  exists g,
    HandTrackerUI.describe pointHand = Some g
    /\ (isFist g = true <-> Spec.fingerSpan pointHand < 0.12)
    /\ (isOpen g = true <-> Spec.fingerSpan pointHand > 0.25)
    /\ (isGrabbing g = true <->
        Spec.euclid (Spec.landmark pointHand 4) (Spec.landmark pointHand 8)
        < 0.05)
    /\ position g
       = Spec.midpoint (Spec.landmark pointHand 0) (Spec.landmark pointHand 9).
Proof.
  apply (classifier_matches_reference pointHand). reflexivity.
Defined.

(** The two finger-span thresholds exclude each other, so the classifier
    never sets [isFist] and [isOpen] together. *)
Lemma classifier_never_fist_and_open lm g :
  HandTrackerUI.describe lm = Some g ->
  isFist g = false \/ isOpen g = false.
Proof.
  unfold HandTrackerUI.describe, HandTrackerUI.analyzeFist,
    HandTrackerUI.analyzeOpenHand.
  destruct (HandTrackerUI.avgDist lm) as [a|]; [|discriminate].
  destruct (HandTrackerUI.analyzeGrabbing lm); [|discriminate].
  destruct (nth_error lm 0); [|discriminate].
  destruct (nth_error lm 9); [|discriminate].
  intros H. injection H as <-. simpl.
  destruct (Rltb a 0.12) eqn:E1; [|left; reflexivity].
  right. apply Rltb_true in E1.
  destruct (Rltb 0.25 a) eqn:E2; [|reflexivity].
  apply Rltb_true in E2. lra.
Qed.

(* ------------------------------------------------------------------ *)
(** ** C5: easing a position towards its target *)

Lemma ease_below_one position target rate delta :
  rate * delta <= 1 ->
  Spec.ease position target rate delta
  = position + (target - position) * (delta * rate).
Proof.
  intros H. unfold Spec.ease. rewrite Rmin_right by exact H.
  rewrite (Rmult_comm delta rate). reflexivity.
Qed.

Lemma axis_no_farther position target alpha :
  0 <= alpha <= 1 ->
  Rabs (target - (position + (target - position) * alpha))
  <= Rabs (target - position).
Proof.
  intros H.
  replace (target - (position + (target - position) * alpha))
    with ((target - position) * (1 - alpha)) by ring.
  rewrite Rabs_mult, (Rabs_pos_eq (1 - alpha)) by lra.
  pose proof (Rabs_pos (target - position)). nra.
Qed.

Lemma lerp_eased rate delta this v :
  rate * delta <= 1 ->
  Spec.eased rate delta v this (Vector3.lerp this v (delta * rate)).
Proof.
  intros H. unfold Spec.eased, Vector3.lerp. simpl.
  rewrite !ease_below_one by exact H. repeat split.
Qed.

Lemma lerp_no_farther this v alpha :
  0 <= alpha <= 1 ->
  Spec.no_farther v this (Vector3.lerp this v alpha).
Proof.
  intros H. unfold Spec.no_farther, Vector3.lerp. simpl.
  repeat split; apply axis_no_farther; exact H.
Qed.

(** C5, as stated, fails: the blend factor is not clamped. A scattered
    photo item at the origin with its target one unit away, after a frame
    of one second: the code moves it to 3, the clamped formula to 1, and
    it ends twice as far from the target as it started. *)
Lemma long_frame_overshoots :
  let m := PhotoItem.newMesh in
  let target := Vector3.mk 1 0 0 in
  let m' := PhotoItem.frameMesh lookAtStub scatteredProps
              (Vector3.mk 0 0 0) target (Vector3.mk 0 5 15) 1 m in
  Vector3.x (PhotoItem.position m') = 3
  /\ Spec.ease (Vector3.x (PhotoItem.position m)) (Vector3.x target) 3 1 = 1
  /\ Rabs (Vector3.x target - Vector3.x (PhotoItem.position m'))
     > Rabs (Vector3.x target - Vector3.x (PhotoItem.position m)).
Proof.
  simpl. unfold Spec.ease. split; [lra|]. split.
  - rewrite Rmin_left by lra. lra.
  - replace (1 - (0 + (1 - 0) * (1 * 3))) with (- (2)) by lra.
    rewrite Rabs_Ropp, Rminus_0_r, Rabs_pos_eq, Rabs_pos_eq by lra. lra.
Qed.

(** C5, amended: the per-frame update of a photo item that is not the
    zoomed one is [position += (target - position) * (delta * 3)], that of
    a particle is the same with 2.5 (followed, in [SCATTERED], by a bob of
    [sin(elapsedTime + i) * 0.005] on the y axis); the product is not
    clamped. While [rate * delta <= 1] (and [delta >= 0]) the eased
    position is that of the clamped formula and is on no axis farther from
    the target than before. *)
Theorem position_eases_without_clamp :
  (forall lookAt props treePos scatterPos camera delta m,
      PhotoItem.isZoomed props = false ->
      let target :=
        if PhotoItem.isScattered props then scatterPos else treePos in
      let p' :=
        PhotoItem.position
          (PhotoItem.frameMesh lookAt props treePos scatterPos camera
             delta m) in
      p' = Vector3.lerp (PhotoItem.position m) target (delta * 3)
      /\ (0 <= delta -> 3 * delta <= 1 ->
          Spec.eased 3 delta target (PhotoItem.position m) p'
          /\ Spec.no_farther target (PhotoItem.position m) p'))
  /\ (forall appState targets elapsedTime delta i position target,
        nth_error targets i = Some target ->
        let eased := Vector3.lerp position target (delta * 2.5) in
        Experience.frameParticle appState targets elapsedTime delta i
          position
        = Some (if AppState_eqb appState SCATTERED then
                  Vector3.mk (Vector3.x eased)
                    (Vector3.y eased + sin (elapsedTime + INR i) * 0.005)
                    (Vector3.z eased)
                else eased)
        /\ (0 <= delta -> 2.5 * delta <= 1 ->
            Spec.eased 2.5 delta target position eased
            /\ Spec.no_farther target position eased)).
Proof.
  split.
  - intros lookAt props treePos scatterPos camera delta m Hz target p'.
    assert (Hp : p' = Vector3.lerp (PhotoItem.position m) target (delta * 3)).
    { unfold p', target, PhotoItem.frameMesh. rewrite Hz.
      destruct (PhotoItem.isScattered props); reflexivity. }
    split; [exact Hp|]. intros Hd H. rewrite Hp. split.
    + apply lerp_eased. exact H.
    + apply lerp_no_farther. lra.
  - intros appState targets elapsedTime delta i position target Ht eased.
    split.
    + unfold Experience.frameParticle. rewrite Ht.
      destruct (AppState_eqb appState SCATTERED); reflexivity.
    + intros Hd H. split.
      * apply lerp_eased. exact H.
      * apply lerp_no_farther. lra.
Qed.

Lemma position_eases_without_clamp_witness :
  let p' :=
    PhotoItem.position
      (PhotoItem.frameMesh lookAtStub scatteredProps (Vector3.mk 0 0 0)
         (Vector3.mk 1 0 0) (Vector3.mk 0 5 15) 0.1 PhotoItem.newMesh) in
  Spec.eased 3 0.1 (Vector3.mk 1 0 0)
    (PhotoItem.position PhotoItem.newMesh) p'
  /\ Spec.no_farther (Vector3.mk 1 0 0)
       (PhotoItem.position PhotoItem.newMesh) p'.
Proof.
  destruct position_eases_without_clamp as [Hphoto _].
  destruct (Hphoto lookAtStub scatteredProps (Vector3.mk 0 0 0)
              (Vector3.mk 1 0 0) (Vector3.mk 0 5 15) 0.1 PhotoItem.newMesh
              eq_refl) as [_ H].
  apply H; lra.
Defined.

(** In [SCATTERED] the bob moves a particle that sits on its target away
    from it, however short the frame. *)
Lemma scattered_particle_bobs_off_target :
  Experience.frameParticle SCATTERED [Vector3.mk 0 0 0] (PI / 2) 0 0
    (Vector3.mk 0 0 0)
  = Some (Vector3.mk 0 0.005 0).
Proof.
  unfold Experience.frameParticle, Vector3.lerp. simpl.
  rewrite Rplus_0_r, sin_PI2. f_equal. f_equal; lra.
Qed.

(* ------------------------------------------------------------------ *)
(** ** C6: the assembled targets *)

Lemma treePosition_spiral i :
  Experience.treePosition i
  = Spec.spiral Experience.height Experience.baseRadius 0.4 i
      Experience.count.
Proof.
  unfold Experience.treePosition, Spec.spiral.
  generalize (INR i / INR Experience.count). intros q.
  unfold Experience.height, Experience.baseRadius.
  f_equal; try lra; f_equal; lra.
Qed.

Lemma treePositions_nth i :
  (i < Experience.count)%nat ->
  nth_error Experience.treePositions i = Some (Experience.treePosition i).
Proof.
  intros H. unfold Experience.treePositions.
  rewrite nth_error_map.
  rewrite (nth_error_nth' _ 0%nat) by (rewrite length_seq; exact H).
  rewrite seq_nth by exact H. reflexivity.
Qed.

(** C6, as stated, fails for photo items: no tree height, base radius and
    angular step make their assembled targets the spiral of the reference
    definition. Items 0 of 1 and 1 of 2 already disagree: the first fixes
    the height at 8 and the base radius at 3.6, and then the second would
    sit at radius 1.8, where the code puts it at radius 2 after a full
    turn. *)
Lemma photo_targets_are_no_such_spiral :
  ~ exists H Rb k, forall i N, (i < N)%nat ->
      PhotoItem.treePos i N = Spec.spiral H Rb k i N.
Proof.
  intros [H [Rb [k Hall]]].
  pose proof (Hall 0%nat 1%nat ltac:(lia)) as H01.
  pose proof (Hall 1%nat 2%nat ltac:(lia)) as H12.
  unfold PhotoItem.treePos, PhotoItem.treePos_r, PhotoItem.treePos_h,
    PhotoItem.treePos_angle, Spec.spiral in H01, H12.
  change (INR 0) with 0 in H01. change (INR 1) with 1 in H01, H12.
  change (INR 2) with (1 + 1) in H12.
  injection H01 as Hx0 Hy0 _. injection H12 as Hx1 _ _.
  assert (HH : H = 8) by lra. subst H.
  replace (0 / 1 * PI * 4) with 0 in Hx0 by lra.
  replace (0 * k) with 0 in Hx0 by lra.
  rewrite cos_0 in Hx0.
  assert (HR : Rb = 3.6) by lra. subst Rb.
  replace (1 / (1 + 1) * PI * 4) with (2 * PI) in Hx1 by lra.
  rewrite cos_2PI in Hx1.
  pose proof (COS_bound (1 * k)) as [_ Hc]. lra.
Qed.

(** C6, amended: the assembled target of decorative particle [i] of the
    350 is the spiral of the reference definition with height 10, base
    radius 4 and angular step 0.4. The assembled target of photo [i] of
    [N] lies on the cone of that same tree, at height
    [h = (i/N)*8 - 4] and radius [((10/2 - h)/10)*4], after an azimuth of
    [i * (4*PI/N)]: two turns whatever [N] is, so the angular step depends
    on [N]. *)
Theorem assembled_targets :
  (forall i, (i < Experience.count)%nat ->
     nth_error Experience.treePositions i
     = Some (Spec.spiral 10 4 0.4 i 350))
  /\ (forall i N,
        let h := (INR i / INR N) * 8 - 4 in
        let r := ((10 / 2 - h) / 10) * 4 in
        let angle := INR i * (4 * PI / INR N) in
        PhotoItem.treePos i N = Vector3.mk (cos angle * r) h (sin angle * r)).
Proof.
  split.
  - intros i H. rewrite (treePositions_nth i H), treePosition_spiral.
    reflexivity.
  - intros i N h r angle.
    unfold PhotoItem.treePos, PhotoItem.treePos_r, PhotoItem.treePos_angle,
      PhotoItem.treePos_h.
    replace (INR i / INR N * PI * 4) with angle
      by (unfold angle, Rdiv; ring).
    fold h. replace ((5 - h) / 10 * 4) with r by (unfold r; lra).
    reflexivity.
Qed.

Lemma assembled_targets_witness :
  nth_error Experience.treePositions 7 = Some (Spec.spiral 10 4 0.4 7 350).
Proof.
  destruct assembled_targets as [H _].
  apply (H 7%nat). unfold Experience.count. lia.
Defined.

(* ------------------------------------------------------------------ *)
(** ** C9: the scattered targets *)

Lemma useMemo_no_dependencies {V : Type} compute (c : Memo.cell unit V) g :
  Memo.useMemo (fun _ _ : unit => true) compute tt (Some c) g = (c, g).
Proof. reflexivity. Qed.

Lemma useMemo_pure {D V : Type} same (f : V) (d : D) slot g :
  snd (Memo.useMemo same (fun g => (f, g)) d slot g) = g.
Proof.
  unfold Memo.useMemo. destruct slot as [c|]; [destruct (same _ d)|];
    reflexivity.
Qed.

(** A render of a mounted item keeps the scatter slot and draws no random
    number. *)
Lemma rerender_keeps_scatterPos props inst g :
  PhotoItem.scatterPosMemo (fst (PhotoItem.render props (Some inst) g))
  = PhotoItem.scatterPosMemo inst
  /\ snd (PhotoItem.render props (Some inst) g) = g.
Proof.
  unfold PhotoItem.render.
  pose proof (useMemo_pure PhotoItem.same_index_total
                (PhotoItem.treePos (PhotoItem.index props)
                   (PhotoItem.total props))
                (PhotoItem.index props, PhotoItem.total props)
                (option_map PhotoItem.treePosMemo (Some inst)) g) as Hg.
  destruct (Memo.useMemo PhotoItem.same_index_total _ _ _ g) as [tp g1].
  simpl in Hg. subst g1. simpl. split; reflexivity.
Qed.

Lemma frame_keeps_scatterPos lookAt props camera delta inst :
  PhotoItem.scatterPosMemo (PhotoItem.useFrame lookAt props camera delta inst)
  = PhotoItem.scatterPosMemo inst.
Proof.
  unfold PhotoItem.useFrame. destruct (PhotoItem.meshRef inst); reflexivity.
Qed.

Lemma run_keeps_scatterPos lookAt es s :
  PhotoItem.scatterPosMemo (fst (PhotoItem.run lookAt es s))
  = PhotoItem.scatterPosMemo (fst s)
  /\ snd (PhotoItem.run lookAt es s) = snd s.
Proof.
  revert s. induction es as [|e es IH]; intros s; [split; reflexivity|].
  unfold PhotoItem.run in *. simpl.
  destruct (IH (PhotoItem.handle lookAt e s)) as [IH1 IH2].
  rewrite IH1, IH2. destruct e as [props | props camera delta]; simpl.
  - apply rerender_keeps_scatterPos.
  - split; [apply frame_keeps_scatterPos | reflexivity].
Qed.

Lemma coordinate_in_cube u w :
  0 < w -> 0 <= u < 1 -> - w <= (u - 0.5) * (2 * w) < w.
Proof. intros Hw Hu. split; nra. Qed.

Lemma scatterPositions_n_in_cube n g :
  Random.in_range g ->
  Forall (Spec.in_cube 15) (fst (Experience.scatterPositions_n n g)).
Proof.
  revert g. induction n as [|n IH]; intros g Hg; simpl; [constructor|].
  specialize (IH (Random.mk (Random.draws g) (S (S (S (Random.next g)))))
                Hg).
  destruct (Experience.scatterPositions_n n _) as [vs g2]. simpl.
  constructor; [|exact IH].
  unfold Spec.in_cube. simpl.
  pose proof (coordinate_in_cube _ 15 ltac:(lra) (Hg (Random.next g))).
  pose proof (coordinate_in_cube _ 15 ltac:(lra) (Hg (S (Random.next g)))).
  pose proof (coordinate_in_cube _ 15 ltac:(lra)
                (Hg (S (S (Random.next g))))).
  repeat split; lra.
Qed.

(** The scene's memo slots after the mount, and after any later render. *)
Lemma scene_mount g :
  Experience.render None g
  = ({| Experience.treePositionsMemo := Memo.mk tt Experience.treePositions;
        Experience.scatterPositionsMemo :=
          Memo.mk tt (fst (Experience.scatterPositions g)) |},
     snd (Experience.scatterPositions g)).
Proof.
  unfold Experience.render, Memo.useMemo. cbn [option_map].
  destruct (Experience.scatterPositions g) as [vs g2]. reflexivity.
Qed.

Lemma scene_rerender inst g : Experience.render (Some inst) g = (inst, g).
Proof.
  unfold Experience.render, Memo.useMemo. cbn [option_map Memo.deps].
  destruct inst as [tp sp]. reflexivity.
Qed.

(** Particle [i] takes the draws [3 i], [3 i + 1] and [3 i + 2] that
    follow the start of the stream, one per coordinate. *)
Lemma scatterPositions_n_nth n g i :
  (i < n)%nat ->
  nth_error (fst (Experience.scatterPositions_n n g)) i
  = Some (Vector3.mk
            ((Random.draws g (3 * i + Random.next g) - 0.5) * 30)
            ((Random.draws g (S (3 * i + Random.next g)) - 0.5) * 30)
            ((Random.draws g (S (S (3 * i + Random.next g))) - 0.5) * 30)).
Proof.
  revert g i. induction n as [|n IH]; intros g i H; [lia|].
  simpl.
  specialize (IH (Random.mk (Random.draws g) (S (S (S (Random.next g)))))).
  destruct (Experience.scatterPositions_n n _) as [vs g2]. simpl in *.
  destruct i as [|i]; [reflexivity|].
  simpl nth_error. rewrite (IH i) by lia.
  replace (S i + (S i + (S i + 0)) + Random.next g)%nat
    with (i + (i + (i + 0)) + S (S (S (Random.next g))))%nat by lia.
  reflexivity.
Qed.

Lemma scatterPositions_nth g i :
  (i < Experience.count)%nat ->
  nth_error (fst (Experience.scatterPositions g)) i
  = Some (Vector3.mk
            ((Random.draws g (3 * i + Random.next g) - 0.5) * 30)
            ((Random.draws g (S (3 * i + Random.next g)) - 0.5) * 30)
            ((Random.draws g (S (S (3 * i + Random.next g))) - 0.5) * 30)).
Proof.
  unfold Experience.scatterPositions. apply scatterPositions_n_nth.
Qed.

(** C9: the scattered target of a photo item is made when the item mounts,
    one [Math.random] draw per coordinate, each coordinate in the cube of
    half-width 10. The scattered targets of the particles are made when
    the scene mounts, particle [i] from the three draws [3 i], [3 i + 1]
    and [3 i + 2], one per coordinate, in the cube of half-width 15.
    Whatever follows while the item stays mounted (renders with any props,
    so any mode or selection, and frames) the target is the one made at
    the mount, and no further random number is drawn; likewise for the
    particle targets on every later render of the scene. *)
Theorem scatter_target_fixed :
  (forall lookAt props g,
     let mounted := PhotoItem.render props None g in
     let u := Random.draws g in
     let n := Random.next g in
     Memo.value (PhotoItem.scatterPosMemo (fst mounted))
     = Vector3.mk ((u n - 0.5) * 20) ((u (S n) - 0.5) * 20)
         ((u (S (S n)) - 0.5) * 20)
     /\ snd mounted = Random.mk u (S (S (S n)))
     /\ (Random.in_range g ->
         Spec.in_cube 10
           (Memo.value (PhotoItem.scatterPosMemo (fst mounted))))
     /\ forall es,
          PhotoItem.scatterPosMemo (fst (PhotoItem.run lookAt es mounted))
          = PhotoItem.scatterPosMemo (fst mounted)
          /\ snd (PhotoItem.run lookAt es mounted) = snd mounted)
  /\ (forall g,
        let mounted := Experience.render None g in
        let u := Random.draws g in
        let n := Random.next g in
        (forall i, (i < Experience.count)%nat ->
           nth_error
             (Memo.value (Experience.scatterPositionsMemo (fst mounted))) i
           = Some (Vector3.mk ((u (3 * i + n)%nat - 0.5) * 30)
                     ((u (S (3 * i + n)) - 0.5) * 30)
                     ((u (S (S (3 * i + n))) - 0.5) * 30)))
        /\ (Random.in_range g ->
            Forall (Spec.in_cube 15)
              (Memo.value (Experience.scatterPositionsMemo (fst mounted))))
        /\ forall g', Experience.render (Some (fst mounted)) g'
                      = (fst mounted, g')).
Proof.
  split.
  - intros lookAt props g mounted u n.
    split; [reflexivity|]. split; [reflexivity|]. split.
    + intros Hg. unfold Spec.in_cube. simpl. subst u n.
      set (n := Random.next g).
      pose proof (coordinate_in_cube _ 10 ltac:(lra) (Hg n)).
      pose proof (coordinate_in_cube _ 10 ltac:(lra) (Hg (S n))).
      pose proof (coordinate_in_cube _ 10 ltac:(lra) (Hg (S (S n)))).
      repeat split; lra.
    + intros es. apply run_keeps_scatterPos.
  - intros g mounted u n. unfold mounted, u, n. rewrite scene_mount.
    cbn [fst Memo.value Experience.scatterPositionsMemo].
    split; [intros i Hi; apply scatterPositions_nth; exact Hi|]. split.
    + intros Hg. apply scatterPositions_n_in_cube. exact Hg.
    + intros g'. apply scene_rerender.
Qed.

Lemma constantRandom_in_range : Random.in_range constantRandom.
Proof. intros n. simpl. lra. Qed.

Lemma scatter_target_fixed_witness :
  let mounted := PhotoItem.render scatteredProps None constantRandom in
  Spec.in_cube 10 (Memo.value (PhotoItem.scatterPosMemo (fst mounted)))
  /\ Memo.value
       (PhotoItem.scatterPosMemo
          (fst (PhotoItem.run lookAtStub
                  [PhotoItem.Frame scatteredProps (Vector3.mk 0 5 15) 0.016;
                   PhotoItem.Rerender scatteredProps;
                   PhotoItem.Frame scatteredProps (Vector3.mk 0 5 15) 0.016]
                  mounted)))
     = Memo.value (PhotoItem.scatterPosMemo (fst mounted)).
Proof.
  destruct scatter_target_fixed as [Hphoto _].
  destruct (Hphoto lookAtStub scatteredProps constantRandom)
    as [_ [_ [Hcube Hrun]]].
  split.
  - apply Hcube. exact constantRandom_in_range.
  - destruct (Hrun [PhotoItem.Frame scatteredProps (Vector3.mk 0 5 15) 0.016;
                    PhotoItem.Rerender scatteredProps;
                    PhotoItem.Frame scatteredProps (Vector3.mk 0 5 15) 0.016])
      as [H _].
    rewrite H. reflexivity.
Defined.

(* ================================================================== *)
(** * Further properties of the code *)

(** ** The store under arbitrary runs of actions *)

Lemma runActions_snoc sees l a st :
  runActions sees (l ++ [a]) st = act sees a (runActions sees l st).
Proof. unfold runActions. rewrite fold_left_app. reflexivity. Qed.

Lemma selectionEffect_listed st :
  selectionListed st -> selectionListed (Experience.selectionEffect st).
Proof.
  intros H. unfold Experience.selectionEffect.
  destruct (_ && _ && _); [|exact H].
  destruct (App.photos st) as [|photo rest] eqn:Hp; simpl; [exact H|].
  intros s Hs. simpl in Hs. injection Hs as <-.
  exists photo. simpl. rewrite Hp. split; [left|]; reflexivity.
Qed.

Lemma onGesture_listed captured g st :
  selectionListed st -> selectionListed (App.onGesture captured g st).
Proof.
  intros H. unfold App.onGesture.
  destruct (isFist g && _).
  - intros s Hs. discriminate Hs.
  - destruct (isOpen g && _); exact H.
Qed.

Lemma handleFileUpload_listed newPhotos st :
  selectionListed st -> selectionListed (App.handleFileUpload newPhotos st).
Proof.
  intros H s Hs. destruct (H s Hs) as [p [Hin Hid]].
  exists p. split; [|exact Hid]. simpl. apply in_or_app. left. exact Hin.
Qed.

Lemma act_listed sees a st :
  selectionListed st -> selectionListed (act sees a st).
Proof.
  intros H. destruct a as [g | | newPhotos]; simpl.
  - apply selectionEffect_listed, onGesture_listed, H.
  - destruct (App.modalShown st); [|exact H].
    apply selectionEffect_listed. intros s Hs. discriminate Hs.
  - apply selectionEffect_listed, handleFileUpload_listed, H.
Qed.

Lemma find_hasId s p l :
  In p l -> id p = s ->
  exists q, find (App.hasId (Some s)) l = Some q /\ In q l /\ id q = s.
Proof.
  intros Hin Hid. destruct (find (App.hasId (Some s)) l) as [q|] eqn:E.
  - apply find_some in E. destruct E as [Hq E]. simpl in E.
    apply String.eqb_eq in E. exists q. repeat split; assumption.
  - apply (find_none _ _ E) in Hin. simpl in Hin.
    rewrite Hid, String.eqb_refl in Hin. discriminate Hin.
Qed.

(** Whatever the user does, starting from the initial store and whichever
    [onGesture] the tracker holds, the selection is the id of a listed
    photo; so whenever the overlay is shown its image lookup finds a photo
    with the selected id. *)
Theorem overlay_image_found sees l :
  let st := runActions sees l App.initial in
  selectionListed st
  /\ (App.modalShown st = true ->
      exists p, In p (App.photos st)
                /\ App.selectedPhotoId st = Some (id p)
                /\ App.modalUrl st = Some (url p)).
Proof.
  assert (H : selectionListed (runActions sees l App.initial)).
  { induction l as [|a l IH] using rev_ind.
    - intros s Hs. discriminate Hs.
    - rewrite runActions_snoc. apply act_listed, IH. }
  simpl. split; [exact H|].
  intros Hshown. unfold App.modalShown, truthy in Hshown.
  destruct (App.selectedPhotoId (runActions sees l App.initial))
    as [s|] eqn:Hs; [|discriminate Hshown].
  destruct (H s Hs) as [p [Hin Hid]].
  destruct (find_hasId s p _ Hin Hid) as [q [Hf [Hq Hqid]]].
  exists q. unfold App.modalUrl. rewrite Hs, Hf, Hqid.
  split; [exact Hq|]. split; reflexivity.
Qed.

Lemma selectionEffect_never_closes st :
  App.appState st <> CLOSED ->
  App.appState (Experience.selectionEffect st) <> CLOSED.
Proof.
  unfold Experience.selectionEffect. intros H.
  destruct (_ && _ && _); [|exact H].
  destruct (App.photos st); simpl; [exact H | discriminate].
Qed.

Lemma act_firstRender_never_closes a st :
  App.appState st <> CLOSED ->
  App.appState (act seesFirstRender a st) <> CLOSED.
Proof.
  intros H. destruct a as [g | | newPhotos]; simpl.
  - apply selectionEffect_never_closes.
    unfold App.onGesture, seesFirstRender. simpl.
    rewrite andb_false_r. destruct (isOpen g && true); simpl;
      [discriminate | exact H].
  - destruct (App.modalShown st); [|exact H].
    apply selectionEffect_never_closes. exact H.
  - apply selectionEffect_never_closes. exact H.
Qed.

(** The hand tracker registers its callback once, so the [onGesture] it
    calls is the one of the first render, which sees [CLOSED]: once the
    tree has left [CLOSED], no descriptor (no fist either) and no other
    action brings it back. *)
Theorem first_render_callback_never_closes l st :
  App.appState st <> CLOSED ->
  App.appState (runActions seesFirstRender l st) <> CLOSED.
Proof.
  intros H. induction l as [|a l IH] using rev_ind.
  - exact H.
  - rewrite runActions_snoc. apply act_firstRender_never_closes, IH.
Qed.

Lemma first_render_callback_never_closes_witness :
  App.appState
    (runActions seesFirstRender
       [Gesture (descriptor true false false); CloseViewer;
        Gesture (descriptor true false true)]
       scatteredOne)
  <> CLOSED.
Proof.
  apply (first_render_callback_never_closes _ scatteredOne).
  simpl. discriminate.
Defined.




(** Photos arriving while a pinch is latched: in a settled [SCATTERED]
    store with nothing selected the list was empty (or the effect would
    have fired), and the upload itself zooms onto the first new photo. *)
Theorem upload_under_pinch_zooms photo rest st :
  Experience.selectionEffect st = st ->
  Experience.gestureIsGrabbing (App.gesture st) = true ->
  App.appState st = SCATTERED ->
  truthy (App.selectedPhotoId st) = false ->
  App.photos st = []
  /\ App.appState (uploadPhotos (photo :: rest) st) = ZOOMED
  /\ App.selectedPhotoId (uploadPhotos (photo :: rest) st) = Some (id photo).
Proof.
  destruct st as [mode ps gest sel cam]. simpl. intros Hfix Hg -> Hs.
  unfold Experience.selectionEffect in Hfix. simpl in Hfix.
  rewrite Hg, Hs in Hfix. simpl in Hfix.
  destruct ps as [|ph0 ps0]; [|simpl in Hfix; discriminate Hfix].
  unfold uploadPhotos, Experience.selectionEffect. simpl.
  rewrite Hg, Hs. simpl. repeat split.
Qed.

Lemma upload_under_pinch_zooms_witness :
  App.appState
    (uploadPhotos [photo1; photo2]
       (step (descriptor false false true) scatteredEmpty))
  = ZOOMED.
Proof.
  destruct (upload_under_pinch_zooms photo1 [photo2]
              (step (descriptor false false true) scatteredEmpty)
              eq_refl eq_refl eq_refl eq_refl) as [_ [H _]].
  exact H.
Defined.

(** Frames without a hand can be dropped from any run of camera frames:
    the handler's state after the run is the same. *)
Theorem hand_free_frames_drop {S : Type} (onGesture : HandGesture -> S -> S)
    frames (st : S) :
  cameraFrames onGesture frames st
  = cameraFrames onGesture (filter hasHand frames) st.
Proof.
  revert st. induction frames as [|results frames IH]; intros st.
  - reflexivity.
  - unfold cameraFrames in *. simpl.
    destruct (hasHand results) eqn:E; simpl.
    + apply IH.
    + rewrite <- IH. f_equal.
      unfold hasHand in E. unfold HandTrackerUI.onResults.
      destruct (HandTrackerUI.multiHandLandmarks results) as [[|lm lms]|];
        try reflexivity; discriminate E.
Qed.

(* ------------------------------------------------------------------ *)
(** ** The classifier beyond 21-point hands *)

Lemma describe_short lm :
  (List.length lm < 21)%nat -> HandTrackerUI.describe lm = None.
Proof.
  intros H.
  do 21 (destruct lm as [|? lm]; [reflexivity|]).
  simpl in H. lia.
Qed.

Lemma describe_long lm :
  (21 <= List.length lm)%nat -> exists g, HandTrackerUI.describe lm = Some g.
Proof.
  intros H.
  do 21 (destruct lm as [|? lm]; [simpl in H; lia|]).
  eexists. reflexivity.
Qed.

Lemma classifier_never_fist_and_open_witness :
  exists g, HandTrackerUI.describe pointHand = Some g
            /\ (isFist g = false \/ isOpen g = false).
Proof.
  destruct (describe_long pointHand (Nat.le_refl 21)) as [g Hg].
  exists g. split; [exact Hg|].
  exact (classifier_never_fist_and_open pointHand g Hg).
Defined.

(** The classifier reads landmarks up to index 20: it produces a
    descriptor exactly when the hand has at least 21 landmarks, and on a
    shorter one [onResults] fails before it calls [onGesture], so the
    handler's state is left alone. *)
Theorem descriptor_needs_21_landmarks lm :
  (HandTrackerUI.describe lm = None <-> (List.length lm < 21)%nat)
  /\ forall (S : Type) (onGesture : HandGesture -> S -> S) others (st : S),
       (List.length lm < 21)%nat ->
       HandTrackerUI.onResults onGesture
         {| HandTrackerUI.multiHandLandmarks := Some (lm :: others) |} st
       = st.
Proof.
  split.
  - split; [|apply describe_short].
    intros H. destruct (Nat.lt_ge_cases (List.length lm) 21) as [Hl | Hl];
      [exact Hl|].
    destruct (describe_long lm Hl) as [g Hg]. congruence.
  - intros S onGesture others st H. unfold HandTrackerUI.onResults. simpl.
    rewrite (describe_short lm H). reflexivity.
Qed.

Lemma dist_shift dx dy p q :
  HandTrackerUI.dist (shift dx dy p) (shift dx dy q) = HandTrackerUI.dist p q.
Proof.
  unfold HandTrackerUI.dist, shift. simpl. f_equal. ring.
Qed.

Lemma dist_at_shift dx dy lm a b :
  HandTrackerUI.dist_at (map (shift dx dy) lm) a b
  = HandTrackerUI.dist_at lm a b.
Proof.
  unfold HandTrackerUI.dist_at. rewrite !nth_error_map.
  destruct (nth_error lm a), (nth_error lm b); simpl; try reflexivity.
  rewrite dist_shift. reflexivity.
Qed.

Lemma avgDist_shift dx dy lm :
  HandTrackerUI.avgDist (map (shift dx dy) lm) = HandTrackerUI.avgDist lm.
Proof.
  unfold HandTrackerUI.avgDist, HandTrackerUI.reduce. simpl.
  rewrite !dist_at_shift. reflexivity.
Qed.

(** The flags do not depend on where in the image the hand is: moving
    every landmark by the same offset gives the same [isFist], [isOpen]
    and [isGrabbing], and moves the reported position by that offset. *)
Theorem classifier_ignores_translation dx dy lm g :
  HandTrackerUI.describe lm = Some g ->
  exists g',
    HandTrackerUI.describe (map (shift dx dy) lm) = Some g'
    /\ isFist g' = isFist g
    /\ isOpen g' = isOpen g
    /\ isGrabbing g' = isGrabbing g
    /\ position g' = shift dx dy (position g).
Proof.
  unfold HandTrackerUI.describe, HandTrackerUI.analyzeFist,
    HandTrackerUI.analyzeOpenHand, HandTrackerUI.analyzeGrabbing.
  rewrite avgDist_shift, dist_at_shift, !nth_error_map.
  destruct (HandTrackerUI.avgDist lm) as [a|]; [|discriminate].
  destruct (HandTrackerUI.dist_at lm 4 8) as [d|]; [|discriminate].
  destruct (nth_error lm 0) as [p0|]; [|discriminate].
  destruct (nth_error lm 9) as [p9|]; [|discriminate].
  simpl. intros H. injection H as <-. eexists. split; [reflexivity|].
  simpl. repeat split. unfold shift. simpl. f_equal; field.
Qed.

Lemma classifier_ignores_translation_witness :
  exists g g',
    HandTrackerUI.describe pointHand = Some g
    /\ HandTrackerUI.describe (map (shift 0.25 (- 0.125)) pointHand)
       = Some g'
    /\ isFist g' = isFist g
    /\ isOpen g' = isOpen g
    /\ isGrabbing g' = isGrabbing g
    /\ position g' = shift 0.25 (- 0.125) (position g).
Proof.
  destruct (describe_long pointHand (Nat.le_refl 21)) as [g Hg].
  destruct (classifier_ignores_translation 0.25 (- 0.125) pointHand g Hg)
    as [g' H].
  exists g, g'. split; [exact Hg | exact H].
Defined.

Lemma nth_error_unit_square lm i p :
  Forall inUnitSquare lm -> nth_error lm i = Some p -> inUnitSquare p.
Proof.
  intros H Hn. rewrite Forall_forall in H. apply H.
  exact (nth_error_In lm i Hn).
Qed.

(** On normalized landmarks the reported hand position is a normalized
    image point too. *)
Theorem position_in_unit_square lm g :
  Forall inUnitSquare lm ->
  HandTrackerUI.describe lm = Some g ->
  inUnitSquare (position g).
Proof.
  intros Hall. unfold HandTrackerUI.describe.
  destruct (HandTrackerUI.analyzeFist lm); [|discriminate].
  destruct (HandTrackerUI.analyzeOpenHand lm); [|discriminate].
  destruct (HandTrackerUI.analyzeGrabbing lm); [|discriminate].
  destruct (nth_error lm 0) as [p0|] eqn:E0; [|discriminate].
  destruct (nth_error lm 9) as [p9|] eqn:E9; [|discriminate].
  intros H. injection H as <-. simpl.
  destruct (nth_error_unit_square lm 0 p0 Hall E0) as [Hx0 Hy0].
  destruct (nth_error_unit_square lm 9 p9 Hall E9) as [Hx9 Hy9].
  unfold inUnitSquare. simpl. lra.
Qed.

Lemma pointHand_normalized : Forall inUnitSquare pointHand.
Proof.
  unfold pointHand. apply Forall_forall. intros p Hp.
  apply repeat_spec in Hp. subst p. unfold inUnitSquare. simpl. lra.
Qed.

Lemma position_in_unit_square_witness :
  exists g, HandTrackerUI.describe pointHand = Some g
            /\ inUnitSquare (position g).
Proof.
  destruct (describe_long pointHand (Nat.le_refl 21)) as [g Hg].
  exists g. split; [exact Hg|].
  exact (position_in_unit_square pointHand g pointHand_normalized Hg).
Defined.

(* ------------------------------------------------------------------ *)
(** ** The photo cloud and the layouts *)

Lemma photoItems_from_length st k l :
  List.length (Experience.photoItems_from st k l) = List.length l.
Proof.
  revert k. induction l as [|photo l IH]; intros k; simpl;
    [reflexivity | rewrite IH; reflexivity].
Qed.

(** With pairwise different photo ids, the photo cloud has one item per
    photo, each with its position in the list as [index] and the length of
    the list as [total], and the item of the selected photo is the only
    zoomed one. *)
Theorem one_item_zoomed st k p :
  NoDup (map id (App.photos st)) ->
  nth_error (App.photos st) k = Some p ->
  App.selectedPhotoId st = Some (id p) ->
  List.length (Experience.photoItems st) = List.length (App.photos st)
  /\ forall j props,
       nth_error (Experience.photoItems st) j = Some props ->
       PhotoItem.index props = j
       /\ PhotoItem.total props = List.length (App.photos st)
       /\ PhotoItem.isZoomed props = Nat.eqb j k.
Proof.
  intros Hnd Hk Hsel. unfold Experience.photoItems.
  split; [apply photoItems_from_length|].
  intros j props Hj. rewrite photoItems_from_nth in Hj.
  destruct (nth_error (App.photos st) j) as [q|] eqn:Hq; [|discriminate Hj].
  simpl in Hj. injection Hj as <-. simpl.
  split; [reflexivity|]. split; [reflexivity|].
  rewrite Hsel. simpl.
  destruct (Nat.eqb j k) eqn:E.
  - apply Nat.eqb_eq in E. subst j.
    assert (q = p) by congruence. subst q. apply String.eqb_refl.
  - apply Nat.eqb_neq in E. apply String.eqb_neq. intros Hid.
    apply E. symmetry.
    apply (proj1 (NoDup_nth_error (map id (App.photos st))) Hnd).
    + rewrite length_map. apply nth_error_Some. rewrite Hk. discriminate.
    + rewrite !nth_error_map, Hk, Hq. simpl. rewrite Hid. reflexivity.
Qed.

Lemma one_item_zoomed_witness :
  let st := step (descriptor false false true)
              (step (descriptor false true false)
                 (App.handleFileUpload [photo1; photo2] App.initial)) in
  exists first second,
    Experience.photoItems st = [first; second]
    /\ PhotoItem.isZoomed first = true
    /\ PhotoItem.isZoomed second = false
    /\ PhotoItem.index second = 1%nat
    /\ PhotoItem.total second = 2%nat.
Proof.
  intros st.
  assert (Hnd : NoDup (map id (App.photos st))).
  { simpl. constructor; [|constructor; [|constructor]]; simpl.
    - intros [H | []]. discriminate H.
    - intros []. }
  destruct (one_item_zoomed st 0 photo1 Hnd eq_refl eq_refl) as [_ H].
  eexists. eexists. split; [reflexivity|].
  destruct (H 0%nat _ eq_refl) as [_ [_ H0]].
  destruct (H 1%nat _ eq_refl) as [H1 [H2 H3]].
  repeat split; assumption.
Defined.

Lemma fraction_bounds i N :
  (i < N)%nat -> 0 <= INR i / INR N < 1.
Proof.
  intros H.
  assert (HN : 0 < INR N) by (apply lt_0_INR; lia).
  pose proof (pos_INR i) as Hi. apply lt_INR in H.
  pose proof (Rinv_0_lt_compat _ HN) as Hinv.
  unfold Rdiv. split.
  - apply Rmult_le_pos; lra.
  - apply Rmult_lt_reg_r with (INR N); [exact HN|].
    rewrite Rmult_assoc, Rinv_l by lra. lra.
Qed.

Lemma circle_point a r : Rsqr (cos a * r) + Rsqr (sin a * r) = Rsqr r.
Proof.
  pose proof (sin2_cos2 a) as H. unfold Rsqr in *.
  replace (cos a * r * (cos a * r) + sin a * r * (sin a * r))
    with ((sin a * sin a + cos a * cos a) * (r * r)) by ring.
  rewrite H. ring.
Qed.

(** Both assembled layouts lie on one cone. Every particle target, at a
    height in [-5, 5), and every photo target, at a height in [-4, 4), is
    at the distance from the axis that the particle tree has at that
    height; and photos later in the list hang strictly higher. *)
Theorem assembled_targets_on_tree_cone :
  (forall i, (i < Experience.count)%nat ->
     onTreeCone (Experience.treePosition i)
     /\ - 5 <= Vector3.y (Experience.treePosition i) < 5)
  /\ (forall i N, (i < N)%nat ->
        onTreeCone (PhotoItem.treePos i N)
        /\ - 4 <= Vector3.y (PhotoItem.treePos i N) < 4)
  /\ (forall i j N, (i < j)%nat -> (j < N)%nat ->
        Vector3.y (PhotoItem.treePos i N)
        < Vector3.y (PhotoItem.treePos j N)).
Proof.
  split; [|split].
  - intros i H. pose proof (fraction_bounds i Experience.count H) as Hq.
    unfold onTreeCone, Experience.treePosition, Experience.height,
      Experience.baseRadius.
    set (q := INR i / INR Experience.count) in *.
    cbv zeta. cbn [Vector3.x Vector3.y Vector3.z].
    rewrite circle_point. split; [f_equal; lra | lra].
  - intros i N H. pose proof (fraction_bounds i N H) as Hq.
    unfold onTreeCone, PhotoItem.treePos, PhotoItem.treePos_r,
      PhotoItem.treePos_h. simpl.
    rewrite circle_point. split; [reflexivity | lra].
  - intros i j N Hij HjN.
    unfold PhotoItem.treePos, PhotoItem.treePos_h. simpl.
    assert (HN : 0 < INR N) by (apply lt_0_INR; lia).
    apply lt_INR in Hij.
    pose proof (Rinv_0_lt_compat _ HN) as Hinv.
    assert (INR i * / INR N < INR j * / INR N)
      by (apply Rmult_lt_compat_r; assumption).
    unfold Rdiv. lra.
Qed.

Lemma assembled_targets_on_tree_cone_witness :
  onTreeCone (PhotoItem.treePos 1 3)
  /\ - 4 <= Vector3.y (PhotoItem.treePos 1 3) < 4.
Proof.
  destruct assembled_targets_on_tree_cone as [_ [H _]].
  apply (H 1%nat 3%nat). lia.
Defined.

Lemma scatterPositions_n_shape n g :
  List.length (fst (Experience.scatterPositions_n n g)) = n
  /\ snd (Experience.scatterPositions_n n g)
     = Random.mk (Random.draws g) (3 * n + Random.next g).
Proof.
  revert g. induction n as [|n IH]; intros g; simpl.
  - destruct g; split; reflexivity.
  - specialize (IH (Random.mk (Random.draws g) (S (S (S (Random.next g)))))).
    destruct (Experience.scatterPositions_n n _) as [vs g2]. simpl in *.
    destruct IH as [IH1 IH2]. split; [rewrite IH1; reflexivity|].
    rewrite IH2. f_equal. lia.
Qed.

Lemma treePositions_length :
  List.length Experience.treePositions = Experience.count.
Proof.
  unfold Experience.treePositions. rewrite length_map, length_seq.
  reflexivity.
Qed.

Lemma scatterPositions_length g :
  List.length (fst (Experience.scatterPositions g)) = Experience.count.
Proof.
  unfold Experience.scatterPositions.
  exact (proj1 (scatterPositions_n_shape Experience.count g)).
Qed.

Lemma scatterPositions_draws g :
  snd (Experience.scatterPositions g)
  = Random.mk (Random.draws g) (3 * Experience.count + Random.next g).
Proof.
  unfold Experience.scatterPositions.
  exact (proj2 (scatterPositions_n_shape Experience.count g)).
Qed.

Lemma frameParticle_defined appState targets elapsedTime delta i position :
  (i < List.length targets)%nat ->
  exists p,
    Experience.frameParticle appState targets elapsedTime delta i position
    = Some p.
Proof.
  intros H. unfold Experience.frameParticle.
  destruct (nth_error targets i) as [target|] eqn:E.
  - destruct (AppState_eqb appState SCATTERED); eexists; reflexivity.
  - apply nth_error_None in E. lia.
Qed.

Lemma currentTargets_length appState inst :
  List.length (Memo.value (Experience.treePositionsMemo inst))
  = Experience.count ->
  List.length (Memo.value (Experience.scatterPositionsMemo inst))
  = Experience.count ->
  List.length (Experience.currentTargets appState inst) = Experience.count.
Proof.
  intros Ht Hs. unfold Experience.currentTargets.
  destruct (AppState_eqb appState CLOSED); assumption.
Qed.

Lemma snd_pair {A B : Type} (a : A) (b : B) : snd (a, b) = b.
Proof. reflexivity. Qed.

Lemma fst_pair {A B : Type} (a : A) (b : B) : fst (a, b) = a.
Proof. reflexivity. Qed.

Lemma mounted_targets_length appState g :
  List.length
    (Experience.currentTargets appState (fst (Experience.render None g)))
  = Experience.count.
Proof.
  rewrite scene_mount, fst_pair. apply currentTargets_length.
  - exact treePositions_length.
  - cbn [Memo.value Experience.scatterPositionsMemo].
    apply scatterPositions_length.
Qed.

(** The mounted scene has a target for each of its 350 particles in every
    mode, so the animation loop never reads a missing one; building the
    scattered targets took three calls of [Math.random] per particle,
    1050 in all. *)
Theorem every_particle_has_a_target g appState elapsedTime delta i position :
  (i < Experience.count)%nat ->
  (exists p,
     Experience.frameParticle appState
       (Experience.currentTargets appState
          (fst (Experience.render None g)))
       elapsedTime delta i position
     = Some p)
  /\ snd (Experience.render None g)
     = Random.mk (Random.draws g) (3 * Experience.count + Random.next g).
Proof.
  intros H. split.
  - apply frameParticle_defined. rewrite mounted_targets_length. exact H.
  - rewrite scene_mount, snd_pair. apply scatterPositions_draws.
Qed.

Lemma every_particle_has_a_target_witness :
  exists p,
    Experience.frameParticle SCATTERED
      (Experience.currentTargets SCATTERED
         (fst (Experience.render None constantRandom)))
      0 0.016 349 (Vector3.mk 0 0 0)
    = Some p.
Proof.
  destruct (every_particle_has_a_target constantRandom SCATTERED 0 0.016
              349 (Vector3.mk 0 0 0)) as [H _].
  - unfold Experience.count. lia.
  - exact H.
Defined.

(* ------------------------------------------------------------------ *)
(** ** The memo slots of a photo item *)

Lemma same_index_total_eq a b :
  PhotoItem.same_index_total a b = true -> a = b.
Proof.
  destruct a as [a1 a2], b as [b1 b2]. unfold PhotoItem.same_index_total.
  simpl. intros H. apply andb_true_iff in H. destruct H as [H1 H2].
  apply Nat.eqb_eq in H1, H2. congruence.
Qed.

Lemma mount_treeSlot props g :
  treeSlotFor props (fst (PhotoItem.render props None g)).
Proof. split; reflexivity. Qed.

Lemma rerender_treeSlot old props inst g :
  treeSlotFor old inst ->
  treeSlotFor props (fst (PhotoItem.render props (Some inst) g)).
Proof.
  intros [Hd Hv]. unfold treeSlotFor, PhotoItem.render, Memo.useMemo.
  cbn [option_map].
  destruct (PhotoItem.same_index_total
              (Memo.deps (PhotoItem.treePosMemo inst))
              (PhotoItem.index props, PhotoItem.total props)) eqn:E.
  - apply same_index_total_eq in E. simpl. rewrite E in Hd.
    injection Hd as Hi Ht. rewrite Hv, E, <- Hi, <- Ht.
    split; reflexivity.
  - simpl. split; reflexivity.
Qed.

Lemma frame_treeSlot lookAt old props camera delta inst :
  treeSlotFor old inst ->
  treeSlotFor old (PhotoItem.useFrame lookAt props camera delta inst).
Proof.
  unfold treeSlotFor, PhotoItem.useFrame.
  destruct (PhotoItem.meshRef inst); intros H; exact H.
Qed.

Lemma run_treeSlot lookAt es props s :
  treeSlotFor props (fst s) ->
  treeSlotFor (lastProps props es) (fst (PhotoItem.run lookAt es s)).
Proof.
  revert props s. induction es as [|e es IH]; intros props s H;
    [exact H|].
  unfold PhotoItem.run in *. simpl fold_left.
  destruct e as [props' | props' camera delta]; simpl lastProps; apply IH;
    simpl.
  - apply (rerender_treeSlot props). exact H.
  - apply frame_treeSlot. exact H.
Qed.

(** The assembled target a photo item eases towards is never stale: after
    any renders and frames since the mount, the tree slot holds the target
    of the [index] and [total] of the latest render, so a photo added to
    the list moves the targets of the photos already shown. *)
Theorem tree_target_follows_props lookAt props g es :
  let s := PhotoItem.run lookAt es (PhotoItem.render props None g) in
  Memo.value (PhotoItem.treePosMemo (fst s))
  = PhotoItem.treePos (PhotoItem.index (lastProps props es))
      (PhotoItem.total (lastProps props es)).
Proof.
  simpl.
  exact (proj2 (run_treeSlot lookAt es props _ (mount_treeSlot props g))).
Qed.

(* ------------------------------------------------------------------ *)
(** ** Easing over many frames *)

Lemma remaining_repeat rate delta n :
  remaining rate (repeat delta n) = (1 - delta * rate) ^ n.
Proof.
  unfold remaining. induction n as [|n IH]; simpl;
    [reflexivity | rewrite IH; reflexivity].
Qed.

Lemma offsetScaled_start target v : offsetScaled 1 target v v.
Proof. unfold offsetScaled. repeat split; ring. Qed.

Lemma offsetScaled_lerp k target from v alpha :
  offsetScaled k target from v ->
  offsetScaled (k * (1 - alpha)) target from (Vector3.lerp v target alpha).
Proof.
  unfold offsetScaled, Vector3.lerp. simpl. intros [Hx [Hy Hz]].
  rewrite Hx, Hy, Hz. repeat split; ring.
Qed.

Lemma remaining_app rate l delta :
  remaining rate (l ++ [delta]) = remaining rate l * (1 - delta * rate).
Proof.
  unfold remaining. induction l as [|d l IH]; simpl; [ring|].
  rewrite IH. ring.
Qed.

Lemma photoFrames_snoc lookAt props tp sp camera l delta m :
  photoFrames lookAt props tp sp camera (l ++ [delta]) m
  = PhotoItem.frameMesh lookAt props tp sp camera delta
      (photoFrames lookAt props tp sp camera l m).
Proof. unfold photoFrames. rewrite fold_left_app. reflexivity. Qed.

Lemma unzoomed_position lookAt props tp sp camera delta m :
  PhotoItem.isZoomed props = false ->
  PhotoItem.position (PhotoItem.frameMesh lookAt props tp sp camera delta m)
  = Vector3.lerp (PhotoItem.position m)
      (if PhotoItem.isScattered props then sp else tp) (delta * 3).
Proof.
  intros H. unfold PhotoItem.frameMesh. rewrite H.
  destruct (PhotoItem.isScattered props); reflexivity.
Qed.

Lemma small_offsets k d eps :
  Rabs k < eps / (Rabs d + 1) -> 0 < eps -> Rabs (d * k) < eps.
Proof.
  intros Hk He. rewrite Rabs_mult.
  pose proof (Rabs_pos d) as Hd. pose proof (Rabs_pos k) as Hk0.
  assert (Hpos : 0 < Rabs d + 1) by lra.
  apply Rmult_lt_compat_r with (r := Rabs d + 1) in Hk; [|exact Hpos].
  unfold Rdiv in Hk. rewrite Rmult_assoc, Rinv_l, Rmult_1_r in Hk by lra.
  nra.
Qed.

Lemma offsetScaled_within k target from v eps :
  offsetScaled k target from v ->
  0 < eps ->
  Rabs k < eps / (Rabs (Vector3.x from - Vector3.x target) + 1) ->
  Rabs k < eps / (Rabs (Vector3.y from - Vector3.y target) + 1) ->
  Rabs k < eps / (Rabs (Vector3.z from - Vector3.z target) + 1) ->
  within eps target v.
Proof.
  intros [Hx [Hy Hz]] He Hkx Hky Hkz. unfold within.
  rewrite Hx, Hy, Hz.
  repeat split;
    match goal with
    | |- Rabs (?t + ?d * k - ?t) < _ =>
        replace (t + d * k - t) with (d * k) by ring;
        apply small_offsets; assumption
    end.
Qed.

Lemma powers_vanish q d eps :
  Rabs q < 1 -> 0 < eps ->
  exists N, forall n, (N <= n)%nat -> Rabs (q ^ n) < eps / (Rabs d + 1).
Proof.
  intros Hq He.
  assert (Hpos : 0 < eps / (Rabs d + 1)).
  { pose proof (Rabs_pos d). apply Rdiv_lt_0_compat; lra. }
  destruct (pow_lt_1_zero q Hq _ Hpos) as [N HN].
  exists N. intros n Hn. apply HN. lia.
Qed.

(** A photo item that is not the zoomed one eases geometrically: after
    frames of any lengths, its offset from the active target is the
    starting offset times the product of the factors [1 - delta * 3]. With
    frames of one length [delta], [0 < delta * 3 < 2], it comes within any
    distance of the target and stays there. *)
Theorem photo_position_converges lookAt props tp sp camera m :
  PhotoItem.isZoomed props = false ->
  let target := if PhotoItem.isScattered props then sp else tp in
  (forall deltas,
     offsetScaled (remaining 3 deltas) target (PhotoItem.position m)
       (PhotoItem.position
          (photoFrames lookAt props tp sp camera deltas m)))
  /\ (forall delta eps,
        0 < delta * 3 < 2 -> 0 < eps ->
        exists N, forall n, (N <= n)%nat ->
          within eps target
            (PhotoItem.position
               (photoFrames lookAt props tp sp camera (repeat delta n) m))).
Proof.
  intros Hz target.
  assert (Hform : forall deltas,
             offsetScaled (remaining 3 deltas) target (PhotoItem.position m)
               (PhotoItem.position
                  (photoFrames lookAt props tp sp camera deltas m))).
  { induction deltas as [|delta deltas IH] using rev_ind.
    - apply offsetScaled_start.
    - rewrite photoFrames_snoc, remaining_app, unzoomed_position by exact Hz.
      apply offsetScaled_lerp. exact IH. }
  split; [exact Hform|].
  intros delta eps Hd He.
  assert (Hq : Rabs (1 - delta * 3) < 1) by (apply Rabs_def1; lra).
  destruct (powers_vanish _ (Vector3.x (PhotoItem.position m)
                             - Vector3.x target) eps Hq He) as [Nx Hx].
  destruct (powers_vanish _ (Vector3.y (PhotoItem.position m)
                             - Vector3.y target) eps Hq He) as [Ny Hy].
  destruct (powers_vanish _ (Vector3.z (PhotoItem.position m)
                             - Vector3.z target) eps Hq He) as [Nz Hz'].
  exists (Nx + Ny + Nz)%nat. intros n Hn.
  apply (offsetScaled_within (remaining 3 (repeat delta n)) target
           (PhotoItem.position m)); [apply Hform | exact He | | |];
    rewrite remaining_repeat;
    [apply Hx | apply Hy | apply Hz']; lia.
Qed.

Lemma photo_position_converges_witness :
  exists N, forall n, (N <= n)%nat ->
    within 0.001 (Vector3.mk 1 2 3)
      (PhotoItem.position
         (photoFrames lookAtStub scatteredProps (Vector3.mk 0 0 0)
            (Vector3.mk 1 2 3) (Vector3.mk 0 5 15) (repeat 0.016 n)
            PhotoItem.newMesh)).
Proof.
  destruct (photo_position_converges lookAtStub scatteredProps
              (Vector3.mk 0 0 0) (Vector3.mk 1 2 3) (Vector3.mk 0 5 15)
              PhotoItem.newMesh eq_refl) as [_ H].
  apply (H 0.016 0.001); lra.
Defined.

Lemma zoomed_frame lookAt props tp sp camera delta m :
  PhotoItem.isZoomed props = true ->
  PhotoItem.frameMesh lookAt props tp sp camera delta m
  = {| PhotoItem.position := PhotoItem.position m;
       PhotoItem.scale :=
         Vector3.lerp (PhotoItem.scale m) (Vector3.mk 0 0 0) (delta * 5);
       PhotoItem.rotation := PhotoItem.rotation m |}.
Proof. intros H. unfold PhotoItem.frameMesh. rewrite H. reflexivity. Qed.

(** The zoomed item shrinks where it is: over frames of any lengths its
    position and rotation stay what they were, and its scale is the
    starting scale times the product of the factors [1 - delta * 5]; with
    frames of one length [delta], [0 < delta * 5 < 2], the scale comes
    within any distance of zero and stays there. *)
Theorem zoomed_item_shrinks_in_place lookAt props tp sp camera m :
  PhotoItem.isZoomed props = true ->
  (forall deltas,
     let m' := photoFrames lookAt props tp sp camera deltas m in
     PhotoItem.position m' = PhotoItem.position m
     /\ PhotoItem.rotation m' = PhotoItem.rotation m
     /\ offsetScaled (remaining 5 deltas) (Vector3.mk 0 0 0)
          (PhotoItem.scale m) (PhotoItem.scale m'))
  /\ (forall delta eps,
        0 < delta * 5 < 2 -> 0 < eps ->
        exists N, forall n, (N <= n)%nat ->
          within eps (Vector3.mk 0 0 0)
            (PhotoItem.scale
               (photoFrames lookAt props tp sp camera (repeat delta n) m))).
Proof.
  intros Hz.
  assert (Hform : forall deltas,
             let m' := photoFrames lookAt props tp sp camera deltas m in
             PhotoItem.position m' = PhotoItem.position m
             /\ PhotoItem.rotation m' = PhotoItem.rotation m
             /\ offsetScaled (remaining 5 deltas) (Vector3.mk 0 0 0)
                  (PhotoItem.scale m) (PhotoItem.scale m')).
  { induction deltas as [|delta deltas IH] using rev_ind.
    - split; [reflexivity|]. split; [reflexivity|].
      apply (offsetScaled_start (Vector3.mk 0 0 0)).
    - simpl in *. destruct IH as [Hp [Hr Hs]].
      rewrite photoFrames_snoc, remaining_app, zoomed_frame by exact Hz.
      simpl. split; [exact Hp|]. split; [exact Hr|].
      apply offsetScaled_lerp. exact Hs. }
  split; [exact Hform|].
  intros delta eps Hd He.
  assert (Hq : Rabs (1 - delta * 5) < 1) by (apply Rabs_def1; lra).
  destruct (powers_vanish _ (Vector3.x (PhotoItem.scale m) - 0) eps Hq He)
    as [Nx Hx].
  destruct (powers_vanish _ (Vector3.y (PhotoItem.scale m) - 0) eps Hq He)
    as [Ny Hy].
  destruct (powers_vanish _ (Vector3.z (PhotoItem.scale m) - 0) eps Hq He)
    as [Nz Hz'].
  exists (Nx + Ny + Nz)%nat. intros n Hn.
  destruct (Hform (repeat delta n)) as [_ [_ Hs]].
  apply (offsetScaled_within (remaining 5 (repeat delta n))
           (Vector3.mk 0 0 0) (PhotoItem.scale m));
    [exact Hs | exact He | | |];
    rewrite remaining_repeat; simpl;
    [apply Hx | apply Hy | apply Hz']; lia.
Qed.

Lemma zoomed_item_shrinks_in_place_witness :
  let zoomed :=
    {| PhotoItem.url := "blob:1"; PhotoItem.isScattered := true;
       PhotoItem.index := 0; PhotoItem.total := 1;
       PhotoItem.isZoomed := true |} in
  let m' := photoFrames lookAtStub zoomed (Vector3.mk 0 0 0)
              (Vector3.mk 1 2 3) (Vector3.mk 0 5 15) [0.016; 0.5; 0.02]
              PhotoItem.newMesh in
  PhotoItem.position m' = PhotoItem.position PhotoItem.newMesh
  /\ PhotoItem.rotation m' = PhotoItem.rotation PhotoItem.newMesh.
Proof.
  intros zoomed m'.
  destruct (zoomed_item_shrinks_in_place lookAtStub zoomed
              (Vector3.mk 0 0 0) (Vector3.mk 1 2 3) (Vector3.mk 0 5 15)
              PhotoItem.newMesh eq_refl) as [H _].
  destruct (H [0.016; 0.5; 0.02]) as [Hp [Hr _]].
  split; [exact Hp | exact Hr].
Defined.

Lemma groupFrames_snoc appState l delta ry :
  groupFrames appState (l ++ [delta]) ry
  = Experience.frameGroup appState delta (groupFrames appState l ry).
Proof. unfold groupFrames. rewrite fold_left_app. reflexivity. Qed.

Lemma sumR_snoc l delta : sumR (l ++ [delta]) = sumR l + delta.
Proof.
  unfold sumR. induction l as [|d l IH]; simpl; [ring | rewrite IH; ring].
Qed.

(** The ornamental spin depends on the elapsed time only, not on how it
    is cut into frames: an assembled photo item has turned about its
    vertical axis by half the sum of the frame times (its other two angles
    untouched), and the whole group by 0.5 times that sum in [CLOSED], 0.1
    times in [SCATTERED] and not at all in [ZOOMED]. *)
Theorem spin_depends_on_elapsed_time :
  (forall lookAt props tp sp camera deltas m,
     PhotoItem.isZoomed props = false ->
     PhotoItem.isScattered props = false ->
     PhotoItem.rotation (photoFrames lookAt props tp sp camera deltas m)
     = Rotation.mk (Rotation.x (PhotoItem.rotation m))
         (Rotation.y (PhotoItem.rotation m) + sumR deltas * 0.5)
         (Rotation.z (PhotoItem.rotation m)))
  /\ (forall appState deltas ry,
        groupFrames appState deltas (Some ry)
        = Some (ry + sumR deltas
                     * match appState with
                       | CLOSED => 0.5
                       | SCATTERED => 0.1
                       | ZOOMED => 0
                       end)).
Proof.
  split.
  - intros lookAt props tp sp camera deltas m Hz Hs.
    induction deltas as [|delta deltas IH] using rev_ind.
    + simpl. destruct (PhotoItem.rotation m). simpl. f_equal. ring.
    + rewrite photoFrames_snoc, sumR_snoc. unfold PhotoItem.frameMesh.
      rewrite Hz, Hs. cbn [PhotoItem.rotation]. rewrite IH. simpl.
      f_equal. ring.
  - intros appState deltas ry.
    induction deltas as [|delta deltas IH] using rev_ind.
    + simpl. f_equal. ring.
    + rewrite groupFrames_snoc, sumR_snoc, IH.
      destruct appState; simpl; f_equal; ring.
Qed.

Lemma spin_depends_on_elapsed_time_witness :
  let assembled :=
    {| PhotoItem.url := "blob:1"; PhotoItem.isScattered := false;
       PhotoItem.index := 0; PhotoItem.total := 1;
       PhotoItem.isZoomed := false |} in
  PhotoItem.rotation
    (photoFrames lookAtStub assembled (Vector3.mk 0 0 0) (Vector3.mk 1 2 3)
       (Vector3.mk 0 5 15) [0.25; 0.75] PhotoItem.newMesh)
  = PhotoItem.rotation
      (photoFrames lookAtStub assembled (Vector3.mk 0 0 0)
         (Vector3.mk 1 2 3) (Vector3.mk 0 5 15) [0.5; 0.5]
         PhotoItem.newMesh).
Proof.
  intros assembled.
  destruct spin_depends_on_elapsed_time as [H _].
  rewrite (H lookAtStub assembled _ _ _ [0.25; 0.75] _ eq_refl eq_refl).
  rewrite (H lookAtStub assembled _ _ _ [0.5; 0.5] _ eq_refl eq_refl).
  simpl. f_equal. lra.
Defined.

(* ------------------------------------------------------------------ *)
(** ** Steering the camera *)

Lemma between_lerp lo hi a b alpha :
  lo <= a <= hi -> lo <= b <= hi -> 0 <= alpha <= 1 ->
  lo <= a + (b - a) * alpha <= hi.
Proof. intros Ha Hb Hal. split; nra. Qed.

Lemma frameCamera_box gesture selected delta camera :
  0 <= delta * 2 <= 1 ->
  (forall g, gesture = Some g -> inUnitSquare (position g)) ->
  cameraBox camera ->
  cameraBox (Experience.frameCamera gesture selected delta camera).
Proof.
  intros Hd Hg Hc. unfold Experience.frameCamera.
  destruct gesture as [g|]; [|exact Hc].
  destruct (negb (truthy selected)); [|exact Hc].
  destruct (Hg g eq_refl) as [Hx Hy].
  destruct Hc as [Hcx [Hcy Hcz]].
  unfold cameraBox, Vector3.lerp. simpl.
  split; [|split]; apply between_lerp; try assumption; lra.
Qed.

(** The steered camera stays in a box. While every frame has a blend
    factor [delta * 2] between 0 and 1 and the latched hand position is a
    normalized image point, a camera that starts in the box
    [-7.5, 7.5] x [-2.5, 12.5] x [15, 20] (the canvas puts it at
    (0, 5, 15)) never leaves it; and a frame with no descriptor latched,
    or with a photo selected, does not move it. *)
Theorem camera_stays_in_box frames camera :
  Forall steadyFrame frames ->
  cameraBox camera ->
  cameraBox (steerCamera frames camera)
  /\ forall gesture selected delta c,
       gesture = None \/ truthy selected = true ->
       Experience.frameCamera gesture selected delta c = c.
Proof.
  intros Hf Hc. split.
  - revert camera Hc. induction Hf as [|f frames [Hd Hg] _ IH];
      intros camera Hc; [exact Hc|].
    unfold steerCamera in *. simpl. apply IH.
    apply frameCamera_box; assumption.
  - intros gesture selected delta c [-> | Hs]; [reflexivity|].
    unfold Experience.frameCamera. rewrite Hs.
    destruct gesture; reflexivity.
Qed.

Lemma camera_stays_in_box_witness :
  cameraBox
    (steerCamera
       [ {| frameGesture := Some (descriptor false true false);
            frameSelected := None; frameDelta := 0.016 |};
         {| frameGesture := None; frameSelected := None;
            frameDelta := 0.5 |} ]
       App.cameraStart).
Proof.
  apply camera_stays_in_box.
  - constructor; [|constructor; [|constructor]].
    + split; [simpl; lra|]. intros g H. injection H as <-.
      unfold inUnitSquare. simpl. lra.
    + split; [simpl; lra|]. intros g H. discriminate H.
  - unfold cameraBox, App.cameraStart. simpl. lra.
Defined.

(* ------------------------------------------------------------------ *)
(** ** More on the selection effect and the gallery *)

Lemma selectionEffect_dependencies_witness :
  Experience.selectionEffect
    (App.setGesture (Some (descriptor false true false)) zoomedOne)
  = App.setGesture (Some (descriptor false true false)) zoomedOne.
Proof.
  apply (selectionEffect_dependencies
           (App.setGesture (Some (descriptor false false false)) zoomedOne)
           (App.setGesture (Some (descriptor false true false)) zoomedOne));
    reflexivity.
Defined.

Lemma zoomed_left_only_by_open_palm_witness :
  (App.appState (step (descriptor true false true) (closeViewer zoomedOne))
   = ZOOMED
   /\ App.selectedPhotoId
        (step (descriptor true false true) (closeViewer zoomedOne))
      = None)
  /\ App.appState (step (descriptor false true false) zoomedOne) = SCATTERED
  /\ App.selectedPhotoId (step (descriptor false true false) zoomedOne)
     = Some (id photo1).
Proof.
  split.
  - destruct (zoomed_left_only_by_open_palm (descriptor true false true)
                (closeViewer zoomedOne) eq_refl) as [H _].
    apply H. reflexivity.
  - destruct (zoomed_left_only_by_open_palm (descriptor false true false)
                zoomedOne eq_refl) as [_ H].
    apply H; reflexivity.
Defined.

(** Adding photos to a gallery that already has some never changes the
    mode or the selection, and every photo already shown keeps its place
    in the list (only the [total] its target is computed from grows). *)
Theorem upload_keeps_gallery newPhotos st :
  Experience.selectionEffect st = st ->
  App.photos st <> [] ->
  App.appState (uploadPhotos newPhotos st) = App.appState st
  /\ App.selectedPhotoId (uploadPhotos newPhotos st) = App.selectedPhotoId st
  /\ App.photos (uploadPhotos newPhotos st) = App.photos st ++ newPhotos
  /\ forall j p, nth_error (App.photos st) j = Some p ->
       nth_error (App.photos (uploadPhotos newPhotos st)) j = Some p.
Proof.
  intros Hfix Hne.
  assert (Hup : uploadPhotos newPhotos st
                = App.handleFileUpload newPhotos st).
  { unfold uploadPhotos.
    destruct st as [mode ps gest sel cam]. simpl in Hne.
    unfold Experience.selectionEffect in *. simpl in *.
    destruct (Experience.gestureIsGrabbing gest && AppState_eqb mode SCATTERED
              && negb (truthy sel)) eqn:E; [|reflexivity].
    destruct ps as [|ph0 ps0]; [contradiction|]. simpl in *.
    apply andb_true_iff in E. destruct E as [E _].
    apply andb_true_iff in E. destruct E as [_ E].
    apply AppState_eqb_eq in E. subst mode.
    apply (f_equal App.appState) in Hfix. discriminate Hfix. }
  rewrite Hup. simpl. repeat split.
  intros j p Hj. rewrite nth_error_app1; [exact Hj|].
  apply nth_error_Some. rewrite Hj. discriminate.
Qed.

Lemma upload_keeps_gallery_witness :
  App.appState (uploadPhotos [photo2] zoomedOne) = ZOOMED
  /\ App.selectedPhotoId (uploadPhotos [photo2] zoomedOne)
     = Some (id photo1)
  /\ App.photos (uploadPhotos [photo2] zoomedOne) = [photo1; photo2].
Proof.
  destruct (upload_keeps_gallery [photo2] zoomedOne eq_refl)
    as [H1 [H2 [H3 _]]].
  - simpl. discriminate.
  - split; [exact H1|]. split; [exact H2 | exact H3].
Defined.

(* ------------------------------------------------------------------ *)
(** ** C1 and C3: fists and repeated descriptors *)

Lemma Rltb_false a b : Rltb a b = false <-> ~ a < b.
Proof.
  unfold Rltb. destruct (Rlt_dec a b); split; intros H;
    try reflexivity; try assumption; try discriminate; contradiction.
Qed.

Lemma euclid_level a b y :
  b <= a -> Spec.euclid (Point.mk a y) (Point.mk b y) = a - b.
Proof.
  intros H. unfold Spec.euclid. simpl.
  replace (y - y) with 0 by ring. rewrite Rsqr_0, Rplus_0_r.
  apply sqrt_Rsqr. lra.
Qed.

(** The flags of the descriptor of a 21-point hand. *)
Lemma describe_flags lm g :
  List.length lm = 21%nat ->
  HandTrackerUI.describe lm = Some g ->
  isFist g = Rltb (Spec.fingerSpan lm) 0.12
  /\ isOpen g = Rltb 0.25 (Spec.fingerSpan lm)
  /\ isGrabbing g
     = Rltb (Spec.euclid (Spec.landmark lm 4) (Spec.landmark lm 8)) 0.05.
Proof.
  intros H.
  unfold HandTrackerUI.describe, HandTrackerUI.analyzeFist,
    HandTrackerUI.analyzeOpenHand, HandTrackerUI.analyzeGrabbing.
  rewrite (avgDist_fingerSpan lm H).
  generalize (Spec.fingerSpan lm). intros span.
  do 21 (destruct lm as [|? lm]; [discriminate H|]).
  destruct lm; [|discriminate H].
  unfold HandTrackerUI.dist_at, Spec.landmark. simpl.
  intros Hg. injection Hg as <-. simpl. rewrite dist_euclid.
  repeat split.
Qed.

(** The hand closed to a point is a fist and a pinch. *)
Lemma pointHand_descriptor :
  exists g, HandTrackerUI.describe pointHand = Some g
            /\ isFist g = true /\ isOpen g = false /\ isGrabbing g = true.
Proof.
  destruct (describe_long pointHand (Nat.le_refl 21)) as [g Hg].
  exists g. split; [exact Hg|].
  destruct (describe_flags pointHand g eq_refl Hg) as [Hf [Ho Hp]].
  rewrite Hf, Ho, Hp.
  unfold Spec.fingerSpan, Spec.landmark, pointHand. cbn [nth repeat].
  rewrite !euclid_level by lra.
  split; [apply Rltb_true; lra|].
  split; [apply Rltb_false; lra | apply Rltb_true; lra].
Qed.

(** The stretched hand with the thumb on the index tip is an open palm
    and a pinch. *)
Lemma openPinchHand_descriptor :
  exists g, HandTrackerUI.describe openPinchHand = Some g
            /\ isFist g = false /\ isOpen g = true /\ isGrabbing g = true.
Proof.
  destruct (describe_long openPinchHand) as [g Hg]; [simpl; lia|].
  exists g. split; [exact Hg|].
  destruct (describe_flags openPinchHand g eq_refl Hg) as [Hf [Ho Hp]].
  rewrite Hf, Ho, Hp.
  unfold Spec.fingerSpan, Spec.landmark, openPinchHand. cbn [nth].
  rewrite !euclid_level by lra.
  split; [apply Rltb_false; lra|]. split; apply Rltb_true; lra.
Qed.

Lemma cameraFrames_hand {S : Type} (onGesture : HandGesture -> S -> S)
    lm g frames (st : S) :
  HandTrackerUI.describe lm = Some g ->
  cameraFrames onGesture (handFrame lm :: frames) st
  = cameraFrames onGesture frames (onGesture g st).
Proof.
  intros H. unfold cameraFrames. cbn [fold_left].
  unfold HandTrackerUI.onResults at 2, handFrame.
  cbn [HandTrackerUI.multiHandLandmarks]. rewrite H. reflexivity.
Qed.

(** The fist branch as it is written: an [onGesture] whose [appState] is
    not [CLOSED] closes the tree and clears the selection on every fist. *)
Lemma fist_branch_as_written captured g st :
  isFist g = true -> captured <> CLOSED ->
  App.appState (App.onGesture captured g st) = CLOSED
  /\ App.selectedPhotoId (App.onGesture captured g st) = None.
Proof.
  intros Hf Hc. unfold App.onGesture. rewrite Hf.
  destruct captured; [contradiction | |]; split; reflexivity.
Qed.

(** C1 on the code: the hand closed to a point is a fist, and the frame
    that shows it leaves a scattered tree scattered and a zoomed photo
    zoomed and selected; so does the descriptor with no flag but
    [isFist]. The callback that runs closed over [CLOSED], so the fist
    branch is never taken. *)
Lemma fist_leaves_the_tree_open :
  exists g,
    HandTrackerUI.describe pointHand = Some g
    /\ isFist g = true
    /\ cameraFrames step [handFrame pointHand] scatteredEmpty
       = step g scatteredEmpty
    /\ App.appState scatteredEmpty = SCATTERED
    /\ App.appState (step g scatteredEmpty) = SCATTERED
    /\ App.appState zoomedOne = ZOOMED
    /\ App.appState (step g zoomedOne) = ZOOMED
    /\ App.selectedPhotoId (step g zoomedOne) = Some (id photo1)
    /\ App.appState (step (descriptor true false false) scatteredOne)
       = SCATTERED.
Proof.
  destruct pointHand_descriptor as [g [Hd [Hf [Ho Hp]]]].
  exists g. split; [exact Hd|]. split; [exact Hf|].
  split; [exact (cameraFrames_hand step pointHand g [] _ Hd)|].
  destruct g as [f o gr r p l]. cbn [isFist isOpen isGrabbing] in Hf, Ho, Hp.
  subst f o gr. repeat split.
Qed.

(** C3 on the code: the stretched hand with the thumb on the index tip,
    shown in two frames to the closed tree with one photo. The first
    frame scatters the tree and zooms onto the photo; the second scatters
    it again with the photo still selected, because the callback that
    runs takes every open palm for one shown to the closed tree. *)
Lemma open_pinch_moves_store_twice :
  exists g,
    HandTrackerUI.describe openPinchHand = Some g
    /\ cameraFrames step [handFrame openPinchHand; handFrame openPinchHand]
         onePhoto
       = feed 2 g onePhoto
    /\ App.appState (feed 1 g onePhoto) = ZOOMED
    /\ App.selectedPhotoId (feed 1 g onePhoto) = Some (id photo1)
    /\ App.appState (feed 2 g onePhoto) = SCATTERED
    /\ App.selectedPhotoId (feed 2 g onePhoto) = Some (id photo1)
    /\ feed 2 g onePhoto <> feed 1 g onePhoto.
Proof.
  destruct openPinchHand_descriptor as [g [Hd [Hf [Ho Hp]]]].
  exists g. split; [exact Hd|]. split.
  { rewrite (cameraFrames_hand step openPinchHand g _ _ Hd).
    rewrite (cameraFrames_hand step openPinchHand g _ _ Hd). reflexivity. }
  destruct g as [f o gr r p l]. cbn [isFist isOpen isGrabbing] in Hf, Ho, Hp.
  subst f o gr. repeat split.
  intros H. apply (f_equal App.appState) in H. discriminate H.
Qed.

(** Repeating a descriptor is harmless unless it is an open palm that
    pinches: otherwise the store after the first application is a fixed
    point. *)
Lemma step_settles_unless_open_pinch g st :
  isOpen g = false \/ isGrabbing g = false ->
  step g (step g st) = step g st.
Proof.
  intros H. destruct g as [f o gr r p l]. simpl in H.
  destruct H as [H | H]; subst;
    [destruct gr | destruct o]; destruct f; case_store st; reflexivity.
Qed.
